(** * Intake agent front end: store, transcript aggregation, proxy route

    A shallow embedding of the TypeScript units of the front end:

    - [frontend/store/agentStore.ts]: the zustand store holding the session
      (modules [Store] and [Session]);
    - the hook [useCombinedTranscriptions] (module [Transcriptions]);
    - the catch-all Next.js route handler that forwards to the intake
      backend (module [Proxy]);
    - the components [ChatPopup], [TranscriptionView] and [ModeToggle], as
      far as they act on the store, the hook and the room (module [Chat]).

    JavaScript values are modelled by the type [JS.value]; asynchronous
    functions are split at their [await] into a synchronous first part and
    the part that runs once the awaited promise has settled, so that other
    store operations may run in between. *)

From Stdlib Require Import ZArith Sorted Permutation.
From stdpp Require Import gmap strings list fin_maps pretty.

Local Open Scope Z_scope.
Local Open Scope string_scope.
Local Set Warnings "-register-all".

(** ** JavaScript values *)

Module JS.

(** Values that the code handles at run time: the JSON values a backend
    can send, plus [undefined].  Numbers are only ever tested for
    truthiness by the code modelled here, so an integer stands for the
    number: every number that is not zero behaves alike. Objects are finite
    maps from property names to values (the order of keys is not
    observed by any function below). *)
Inductive value : Type :=
| VUndef
| VNull
| VBool (b : bool)
| VNum (n : Z)
| VStr (s : string)
| VArr (l : list value)
| VObj (m : gmap string value).

Inductive error : Type :=
| TypeError        (* property read on undefined or null *)
| NetworkFailure   (* fetch(...) rejected *)
| SyntaxError.     (* body is not JSON: response.json() rejected *)

(** How the evaluation of an expression or a block ends. *)
Inductive completion (A : Type) : Type :=
| Normal (a : A)
| Thrown (e : error).
Arguments Normal {A} a.
Arguments Thrown {A} e.

(** ToBoolean, as used by [if (v)] and [v || w]. *)
Definition truthy (v : value) : bool :=
  match v with
  | VUndef | VNull => false
  | VBool b => b
  | VNum n => negb (Z.eqb n 0)
  | VStr s => negb (String.eqb s EmptyString)
  | VArr _ | VObj _ => true
  end.

Definition nullish (v : value) : bool :=
  match v with
  | VUndef | VNull => true
  | _ => false
  end.

(** [a || b] (the right operand has no effect wherever it is used here). *)
Definition js_or (a b : value) : value := if truthy a then a else b.

(** [v.k] for the property names the sources read ([message], [state],
    [response], [client_data], [current_stage], [connection_details],
    [greeting]): none of them is an index, [length] or a member of a
    built-in prototype, so only an object can have one. *)
Definition get_prop (v : value) (k : string) : completion value :=
  match v with
  | VUndef | VNull => Thrown TypeError
  | VObj m => Normal (default VUndef (m !! k))
  | _ => Normal VUndef
  end.

(** The own enumerable properties copied by the spread [{...v}]: those of
    an object, the indices of an array or of a string, nothing for the
    other values. *)
Definition indexed (l : list value) : gmap string value :=
  list_to_map (imap (fun i x => (pretty i, x)) l).

Definition own_props (v : value) : gmap string value :=
  match v with
  | VObj m => m
  | VArr l => indexed l
  | VStr s => indexed ((fun c => VStr (String c EmptyString)) <$> String.list_ascii_of_string s)
  | _ => ∅
  end.

(** [{...a, ...b}]: a key of [b] wins over the same key of [a]. *)
Definition spread2 (a b : value) : value := VObj (own_props b ∪ own_props a).

(** [l.sort(cmp)]: the sort is stable, and when [cmp] orders the elements
    consistently its result is determined: ascending for [cmp], elements
    that compare equal staying in their original order. Inserting the
    elements one by one, from the last to the first, each before the first
    element it does not exceed, computes that array. *)
Fixpoint sort_insert {A} (cmp : A -> A -> Z) (x : A) (l : list A) : list A :=
  match l with
  | [] => [x]
  | y :: l' => if Z.leb (cmp x y) 0 then x :: l else y :: sort_insert cmp x l'
  end.

Definition sort {A} (cmp : A -> A -> Z) (l : list A) : list A :=
  foldr (sort_insert cmp) [] l.

(** [${n}] for an integer [n]. *)
Definition template_of_int (n : Z) : string := pretty n.

(** [l.join(sep)] on an array of strings. *)
Fixpoint join (sep : string) (l : list string) : string :=
  match l with
  | [] => EmptyString
  | [x] => x
  | x :: rest => x ++ sep ++ join sep rest
  end.

End JS.

(** ** HTTP as seen through [fetch] *)

Module Http.
Import JS.

Inductive method : Type := GET | POST.

(** The arguments of one call to [fetch]. [req_body] is the value handed
    to [JSON.stringify]. *)
Record request : Type := mkRequest {
  req_url : string;
  req_method : method;
  req_headers : list (string * string);
  req_body : option value
}.

(** What a call to [fetch] followed by [response.json()] can meet.
    [fetch] rejects only when no response arrives at all; a response with
    any status code resolves. [resp_json] is [None] when the body is not
    JSON. *)
Inductive fetch_outcome : Type :=
| Rejected
| Response (status : Z) (resp_json : option value).

(** [const response = await fetch(...); const data = await response.json();] *)
Definition await_json (o : fetch_outcome) : completion value :=
  match o with
  | Rejected => Thrown NetworkFailure
  | Response _ None => Thrown SyntaxError
  | Response _ (Some data) => Normal data
  end.

Definition json_headers : list (string * string) :=
  [("Content-Type", "application/json")].

End Http.

(** ** Code that changes a state and may throw *)

Module Eff.
Import JS.

(** A thrown error keeps the state reached so far: nothing is undone. *)
Definition M (S A : Type) : Type := S -> completion A * S.

Section Ops.
Context {S : Type}.

Definition ret {A} (a : A) : M S A := fun s => (Normal a, s).

Definition bind {A B} (m : M S A) (k : A -> M S B) : M S B :=
  fun s =>
    match m s with
    | (Normal a, s') => k a s'
    | (Thrown e, s') => (Thrown e, s')
    end.

Definition get : M S S := fun s => (Normal s, s).

Definition set (f : S -> S) : M S unit := fun s => (Normal tt, f s).

(** The outcome of an expression that leaves the state alone. *)
Definition lift {A} (c : completion A) : M S A := fun s => (c, s).

(** [try { body } catch (error) { handler }] *)
Definition try_catch {A} (body : M S A) (handler : error -> M S A) : M S A :=
  fun s =>
    match body s with
    | (Normal a, s') => (Normal a, s')
    | (Thrown e, s') => handler e s'
    end.

(** [if (v) { m }] *)
Definition when_truthy (v : value) (m : M S unit) : M S unit :=
  if truthy v then m else ret tt.

End Ops.

Declare Scope eff_scope.
Delimit Scope eff_scope with eff.
Notation "x <- m ;; k" := (bind m (fun x => k))
  (at level 100, m at next level, k at level 200, right associativity) : eff_scope.
Notation "m ;; k" := (bind m (fun _ => k))
  (at level 100, k at level 200, right associativity) : eff_scope.

End Eff.

(** ** The session store ([frontend/store/agentStore.ts]) *)

Module Store.
Import JS Http Eff.
Local Open Scope eff_scope.

Inductive Mode : Type := text | voice.
Inductive Role : Type := user | assistant.

(** [content] is typed [string] in the source, but the store puts there
    whatever the backend sent, hence a [value]. *)
Record Message : Type := mkMessage {
  role : Role;
  content : value;
  timestamp : Z
}.

(** The data fields of [AgentState]. [clientData], [currentStage] and
    [connectionDetails] receive values taken from backend replies without
    any check, hence [value]. *)
Record AgentState : Type := mkAgentState {
  mode : Mode;
  isTransitioning : bool;
  clientData : value;
  conversationHistory : list Message;
  currentStage : value;
  sessionId : string;
  connectionDetails : value
}.

(** [`session_${Date.now()}`] *)
Definition new_session_id (now : Z) : string := "session_" ++ template_of_int now.

(** The state the store is created with, [now] being the clock reading at
    that moment. *)
Definition initial_state (now : Z) : AgentState :=
  {| mode := text;
     isTransitioning := false;
     clientData := VObj ∅;
     conversationHistory := [];
     currentStage := VStr "greeting";
     sessionId := new_session_id now;
     connectionDetails := VNull |}.

(** *** Partial updates: the objects passed to zustand's [set] *)

Definition set_isTransitioning (b : bool) (s : AgentState) : AgentState :=
  {| mode := mode s; isTransitioning := b; clientData := clientData s;
     conversationHistory := conversationHistory s;
     currentStage := currentStage s; sessionId := sessionId s;
     connectionDetails := connectionDetails s |}.

(** [{ mode: m, isTransitioning: false, connectionDetails: cd }] *)
Definition set_mode_settled (m : Mode) (cd : value) (s : AgentState) : AgentState :=
  {| mode := m; isTransitioning := false; clientData := clientData s;
     conversationHistory := conversationHistory s;
     currentStage := currentStage s; sessionId := sessionId s;
     connectionDetails := cd |}.

Definition set_clientData (d : value) (s : AgentState) : AgentState :=
  {| mode := mode s; isTransitioning := isTransitioning s; clientData := d;
     conversationHistory := conversationHistory s;
     currentStage := currentStage s; sessionId := sessionId s;
     connectionDetails := connectionDetails s |}.

Definition set_currentStage (st : value) (s : AgentState) : AgentState :=
  {| mode := mode s; isTransitioning := isTransitioning s;
     clientData := clientData s;
     conversationHistory := conversationHistory s;
     currentStage := st; sessionId := sessionId s;
     connectionDetails := connectionDetails s |}.

(** [{ clientData: d, currentStage: st }] *)
Definition set_backend_state (d st : value) (s : AgentState) : AgentState :=
  set_currentStage st (set_clientData d s).

Definition set_conversationHistory (h : list Message) (s : AgentState) : AgentState :=
  {| mode := mode s; isTransitioning := isTransitioning s;
     clientData := clientData s; conversationHistory := h;
     currentStage := currentStage s; sessionId := sessionId s;
     connectionDetails := connectionDetails s |}.

(** *** Store actions

    An action transforms the state of the store and may throw. [get] and
    [set] are zustand's. *)

Definition M (A : Type) : Type := Eff.M AgentState A.

(** *** Request bodies *)

Definition string_of_mode (m : Mode) : string :=
  match m with text => "text" | voice => "voice" end.

Definition string_of_role (r : Role) : string :=
  match r with user => "user" | assistant => "assistant" end.

(** [msg => ({ role: msg.role, content: msg.content })] *)
Definition message_snapshot (msg : Message) : value :=
  VObj (<["role" := VStr (string_of_role (role msg))]>
        (<["content" := content msg]> ∅)).

(** The [agent_state] object sent with both POST requests. *)
Definition agent_state_snapshot (s : AgentState) : value :=
  VObj (<["client_data" := clientData s]>
        (<["conversation_history" := VArr (message_snapshot <$> conversationHistory s)]>
        (<["current_stage" := currentStage s]> ∅))).

Definition switchMode_request (newMode : Mode) (s : AgentState) : request :=
  {| req_url := "/api/intake/switch-mode";
     req_method := POST;
     req_headers := json_headers;
     req_body := Some (VObj (<["session_id" := VStr (sessionId s)]>
                            (<["current_mode" := VStr (string_of_mode (mode s))]>
                            (<["new_mode" := VStr (string_of_mode newMode)]>
                            (<["agent_state" := agent_state_snapshot s]> ∅))))) |}.

Definition sendTextMessage_request (message : string) (s : AgentState) : request :=
  {| req_url := "/api/intake/text-message";
     req_method := POST;
     req_headers := json_headers;
     req_body := Some (VObj (<["message" := VStr message]>
                            (<["session_id" := VStr (sessionId s)]>
                            (<["agent_state" := agent_state_snapshot s]> ∅)))) |}.

(** [fetch(`/api/intake/initial-greeting/${get().sessionId}`)] *)
Definition initialize_request (s : AgentState) : request :=
  {| req_url := "/api/intake/initial-greeting/" ++ sessionId s;
     req_method := GET;
     req_headers := [];
     req_body := None |}.

(** *** The actions *)

Definition updateClientData (data : value) : M unit :=
  s <- get ;; set (set_clientData (spread2 (clientData s) data)).

Definition addMessage (message : Message) : M unit :=
  s <- get ;; set (set_conversationHistory (conversationHistory s ++ [message])).

(** [switchMode], up to the call of [fetch]: the flag is raised and the
    request is built from the state. It returns the request issued. *)
Definition switchMode_begin (newMode : Mode) : M request :=
  set (set_isTransitioning true) ;;
  s <- get ;;
  ret (switchMode_request newMode s).

(** [switchMode], from the moment the request has settled with outcome
    [o]; [now] is the reading of [Date.now()]. The logging in the handler
    has no effect on the store. *)
Definition switchMode_settle (newMode : Mode) (o : fetch_outcome) (now : Z) : M unit :=
  try_catch
    (data <- lift (await_json o) ;;
     match newMode with
     | voice =>
         cd <- lift (get_prop data "connection_details") ;;
         set (set_mode_settled voice cd)
     | text =>
         set (set_mode_settled text VNull) ;;
         msg <- lift (get_prop data "message") ;;
         when_truthy msg
           (addMessage {| role := assistant; content := msg; timestamp := now |}) ;;
         st <- lift (get_prop data "state") ;;
         when_truthy st
           (cd <- lift (get_prop st "client_data") ;;
            cs <- lift (get_prop st "current_stage") ;;
            set (set_backend_state (js_or cd (VObj ∅)) (js_or cs (VStr "greeting"))))
     end)
    (fun _ => set (set_isTransitioning false)).

(** One whole call of [switchMode] with nothing else running in between:
    [backend] gives the outcome of the request. *)
Definition switchMode (backend : request -> fetch_outcome) (now : Z) (newMode : Mode) : M unit :=
  req <- switchMode_begin newMode ;;
  switchMode_settle newMode (backend req) now.

Definition sendTextMessage_fallback : string :=
  "Sorry, I encountered an error processing your message. Please try again.".

(** [sendTextMessage], up to the call of [fetch]. *)
Definition sendTextMessage_begin (message : string) (now : Z) : M request :=
  addMessage {| role := user; content := VStr message; timestamp := now |} ;;
  s <- get ;;
  ret (sendTextMessage_request message s).

(** [sendTextMessage], once the request has settled. *)
Definition sendTextMessage_settle (o : fetch_outcome) (now : Z) : M unit :=
  try_catch
    (data <- lift (await_json o) ;;
     resp <- lift (get_prop data "response") ;;
     addMessage {| role := assistant; content := resp; timestamp := now |} ;;
     cd <- lift (get_prop data "client_data") ;;
     when_truthy cd (updateClientData cd) ;;
     st <- lift (get_prop data "state") ;;
     when_truthy st
       (cs <- lift (get_prop st "current_stage") ;;
        when_truthy cs (set (set_currentStage cs))))
    (fun _ =>
       addMessage {| role := assistant;
                     content := VStr sendTextMessage_fallback;
                     timestamp := now |}).

(** One whole call of [sendTextMessage]; [now] and [now'] are the two
    readings of the clock, before and after the request. *)
Definition sendTextMessage (backend : request -> fetch_outcome) (now now' : Z)
    (message : string) : M unit :=
  req <- sendTextMessage_begin message now ;;
  sendTextMessage_settle (backend req) now'.

Definition initialize_fallback : string :=
  "Hello! I'm your real estate intake assistant. How can I help you today?".

(** [initialize], up to the call of [fetch]: the store is only read. *)
Definition initialize_begin : M request :=
  s <- get ;; ret (initialize_request s).

(** [initialize], once the request has settled. *)
Definition initialize_settle (o : fetch_outcome) (now : Z) : M unit :=
  try_catch
    (data <- lift (await_json o) ;;
     greeting <- lift (get_prop data "greeting") ;;
     addMessage {| role := assistant; content := greeting; timestamp := now |} ;;
     st <- lift (get_prop data "state") ;;
     when_truthy st
       (cd <- lift (get_prop st "client_data") ;;
        cs <- lift (get_prop st "current_stage") ;;
        set (set_backend_state (js_or cd (VObj ∅)) (js_or cs (VStr "greeting")))))
    (fun _ =>
       addMessage {| role := assistant;
                     content := VStr initialize_fallback;
                     timestamp := now |}).

(** [reset()], until it returns: every data field is set anew, then
    [initialize()] runs up to its [fetch]. The request of that
    [initialize] is returned; its second part runs later. *)
Definition reset (now : Z) : M request :=
  set (fun _ => initial_state now) ;;
  initialize_begin.

(** *** The control that calls [switchMode] ([ModeToggle])

    The button is rendered with [disabled={isTransitioning}]; a click
    calls [switchMode] with the other mode. *)
Definition ModeToggle_disabled (s : AgentState) : bool := isTransitioning s.

Definition handleToggle_newMode (s : AgentState) : Mode :=
  match mode s with text => voice | voice => text end.

(** *** Runs of the store

    The steps that can follow one another on the store when [reset] is
    not called: the synchronous actions, and for each asynchronous one its
    part before the [fetch] and its part after the request has settled.
    Steps of different calls may alternate in any order. *)
Inductive action : Type :=
| SwitchModeBegin (newMode : Mode)
| SwitchModeSettle (newMode : Mode) (o : fetch_outcome) (now : Z)
| UpdateClientData (data : value)
| AddMessage (message : Message)
| SendTextMessageBegin (message : string) (now : Z)
| SendTextMessageSettle (o : fetch_outcome) (now : Z)
| InitializeBegin
| InitializeSettle (o : fetch_outcome) (now : Z).

Definition perform (s : AgentState) (a : action) : AgentState :=
  match a with
  | SwitchModeBegin m => (switchMode_begin m s).2
  | SwitchModeSettle m o now => (switchMode_settle m o now s).2
  | UpdateClientData d => (updateClientData d s).2
  | AddMessage msg => (addMessage msg s).2
  | SendTextMessageBegin msg now => (sendTextMessage_begin msg now s).2
  | SendTextMessageSettle o now => (sendTextMessage_settle o now s).2
  | InitializeBegin => (initialize_begin s).2
  | InitializeSettle o now => (initialize_settle o now s).2
  end.

Definition run (s : AgentState) (acts : list action) : AgentState :=
  fold_left perform acts s.

(** The history before an action is a prefix of the history after it. *)
Definition extends_history {A} (m : M A) : Prop :=
  forall s, conversationHistory s `prefix_of` conversationHistory (m s).2.

(** *** The specification's notion of a failed backend call

    This definition follows the words of the specification, not the code.
    The specification names two kinds of failure: transport failure (no
    response arrives) and backend-reported failure (a body that is not
    JSON, or a rejected, error-shaped response). A response counts as
    rejected here when its status code is outside 200..299. *)
Definition backend_call_failed (o : fetch_outcome) : bool :=
  match o with
  | Rejected => true
  | Response _ None => true
  | Response status (Some _) => negb (Z.leb 200 status && Z.ltb status 300)
  end.

(** *** Sample replies and states *)

(** A reply with status 500 whose body is JSON: what the proxy route of
    this repository answers when it cannot reach the backend. *)
Definition error_reply : fetch_outcome :=
  Response 500
    (Some (VObj {[ "error" := VStr "Failed to communicate with intake agent" ]})).

(** A session in voice mode that has collected the client's name. *)
Definition ann_in_voice : AgentState :=
  {| mode := voice;
     isTransitioning := false;
     clientData := VObj {[ "full_name" := VStr "Ann" ]};
     conversationHistory := [];
     currentStage := VStr "contact";
     sessionId := new_session_id 1000;
     connectionDetails :=
       VObj (<["url" := VStr "wss://media"]> {[ "token" := VStr "t" ]}) |}.

Definition budget_delta : value := VObj {[ "budget" := VStr "600k" ]}.

(** A reply to [switch-mode] that carries intake data and a stage. *)
Definition budget_reply : fetch_outcome :=
  Response 200
    (Some (VObj {[ "state" :=
       VObj (<["client_data" := budget_delta]>
               {[ "current_stage" := VStr "budget" ]}) ]})).

End Store.

(** ** The hook [useCombinedTranscriptions] *)

Module Transcriptions.
Import JS.

Inductive Role : Type := user | assistant.

Section Hook.

(** The segments handed over by the media SDK ([agentTranscriptions] and
    the [segments] of [useTrackTranscription]) are of a type declared
    outside this repository. The hook reads their [firstReceivedTime]; the
    view reads [id] and [text]. Whatever else they carry is kept as one
    component of type [Sdk], which the spread [{...val}] copies along. *)
Context {Sdk : Type}.

Record ReceivedSegment : Type := mkReceived {
  rcv_id : string;
  rcv_text : string;
  rcv_firstReceivedTime : Z;
  rcv_rest : Sdk
}.

(** An element of the combined array: the interface [TranscriptionSegment]
    of the hook, with the SDK's further fields when the element comes from
    the SDK. *)
Record TranscriptionSegment : Type := mkSegment {
  id : string;
  text : string;
  role : Role;
  firstReceivedTime : Z;
  rest : option Sdk
}.

(** [{ ...val, role: r }] *)
Definition with_role (r : Role) (val : ReceivedSegment) : TranscriptionSegment :=
  {| id := rcv_id val;
     text := rcv_text val;
     role := r;
     firstReceivedTime := rcv_firstReceivedTime val;
     rest := Some (rcv_rest val) |}.

(** What the hook depends on: the two arrays of the SDK hooks and its own
    [manualMessages] state. *)
Record HookState : Type := mkHook {
  agentTranscriptions : list ReceivedSegment;
  userTranscriptions : list ReceivedSegment;
  manualMessages : list TranscriptionSegment
}.

Definition initial_hook : HookState :=
  {| agentTranscriptions := []; userTranscriptions := []; manualMessages := [] |}.

(** [addManualMessage(text, role = "user")]: [now] is the reading of
    [Date.now()] and [suffix] the string
    [Math.random().toString(36).substring(2, 9)]. *)
Definition newMessage (text : string) (role : option Role) (now : Z)
    (suffix : string) : TranscriptionSegment :=
  {| id := "manual-" ++ template_of_int now ++ "-" ++ suffix;
     text := text;
     role := default user role;
     firstReceivedTime := now;
     rest := None |}.

Definition addManualMessage (text : string) (role : option Role) (now : Z)
    (suffix : string) (h : HookState) : HookState :=
  {| agentTranscriptions := agentTranscriptions h;
     userTranscriptions := userTranscriptions h;
     manualMessages := manualMessages h ++ [newMessage text role now suffix] |}.

(** [(a, b) => a.firstReceivedTime - b.firstReceivedTime] *)
Definition by_firstReceivedTime (a b : TranscriptionSegment) : Z :=
  firstReceivedTime a - firstReceivedTime b.

(** The array before sorting. *)
Definition tagged_sources (h : HookState) : list TranscriptionSegment :=
  (with_role assistant <$> agentTranscriptions h)
  ++ (with_role user <$> userTranscriptions h)
  ++ manualMessages h.

(** The value of the [useMemo], recomputed whenever one of the three
    arrays changes. *)
Definition combinedTranscriptions (h : HookState) : list TranscriptionSegment :=
  sort by_firstReceivedTime (tagged_sources h).

(** What can happen to the inputs of the hook between two renders. *)
Inductive event : Type :=
| AgentUpdate (segments : list ReceivedSegment)
| UserUpdate (segments : list ReceivedSegment)
| AddManualMessage (text : string) (role : option Role) (now : Z) (suffix : string).

Definition step (h : HookState) (e : event) : HookState :=
  match e with
  | AgentUpdate l =>
      {| agentTranscriptions := l;
         userTranscriptions := userTranscriptions h;
         manualMessages := manualMessages h |}
  | UserUpdate l =>
      {| agentTranscriptions := agentTranscriptions h;
         userTranscriptions := l;
         manualMessages := manualMessages h |}
  | AddManualMessage t r now suffix => addManualMessage t r now suffix h
  end.

Definition run (h : HookState) (es : list event) : HookState := fold_left step es h.

(** The messages made by the calls of [addManualMessage] among [es], in
    the order of the calls. *)
Definition manual_of (es : list event) : list TranscriptionSegment :=
  omap (fun e => match e with
                 | AddManualMessage t r now suffix => Some (newMessage t r now suffix)
                 | _ => None
                 end) es.

End Hook.

Arguments ReceivedSegment : clear implicits.
Arguments TranscriptionSegment : clear implicits.
Arguments HookState : clear implicits.
Arguments event : clear implicits.

End Transcriptions.

(** ** The proxy route (the catch-all route handlers [GET] and [POST]) *)

Module Proxy.
Import JS Http Eff.
Local Open Scope eff_scope.

(** [process.env.INTAKE_API_URL || 'http://localhost:8000/api/intake'];
    [env] is the value of the variable, [None] when it is not set. *)
Definition INTAKE_API_BASE_URL (env : option string) : string :=
  match env with
  | Some u => if String.eqb u EmptyString then "http://localhost:8000/api/intake" else u
  | None => "http://localhost:8000/api/intake"
  end.

Record NextResponse : Type := mkNextResponse {
  status : Z;
  body : value
}.

(** [NextResponse.json(data, init)]: the status is 200 unless [init]
    gives one. *)
Definition NextResponse_json (data : value) (init_status : option Z) : NextResponse :=
  {| status := default 200 init_status; body := data |}.

(** [{ error: 'Failed to communicate with intake agent' }] *)
Definition error_body : value :=
  VObj {[ "error" := VStr "Failed to communicate with intake agent" ]}.

Definition target_url (env : option string) (path : list string) : string :=
  let targetPath := join "/" path in
  INTAKE_API_BASE_URL env ++ "/" ++ targetPath.

(** A handler runs against the list of the calls to [fetch] made so far;
    [backend] gives the outcome of a call. *)
Definition H (A : Type) : Type := Eff.M (list request) A.

(** [const response = await fetch(url, init); const data = await response.json();] *)
Definition fetch_json (backend : request -> fetch_outcome) (req : request) : H value :=
  set (fun calls : list request => (calls ++ [req])%list) ;;
  lift (await_json (backend req)).

(** The call [fetch(url, init)] of a handler: [url] is built from the
    path segments, [init] gives the method, the JSON content type and, for
    [POST], [JSON.stringify(body)]. *)
Definition forwarded (m : method) (env : option string) (path : list string)
    (body : option value) : request :=
  {| req_url := target_url env path;
     req_method := m;
     req_headers := json_headers;
     req_body := body |}.

(** Logging in the handlers is left out. *)
Definition GET (env : option string) (backend : request -> fetch_outcome)
    (path : list string) : H NextResponse :=
  try_catch
    (data <- fetch_json backend (forwarded Http.GET env path None) ;;
     ret (NextResponse_json data None))
    (fun _ => ret (NextResponse_json error_body (Some 500))).

(** [incoming] is what [await request.json()] meets: the parsed body of
    the browser's request, [None] when parsing it throws. *)
Definition request_json (incoming : option value) : completion value :=
  match incoming with
  | Some body => Normal body
  | None => Thrown SyntaxError
  end.

Definition POST (env : option string) (backend : request -> fetch_outcome)
    (incoming : option value) (path : list string) : H NextResponse :=
  try_catch
    (body <- lift (request_json incoming) ;;
     data <- fetch_json backend (forwarded Http.POST env path (Some body)) ;;
     ret (NextResponse_json data None))
    (fun _ => ret (NextResponse_json error_body (Some 500))).

(** The fixed answer of the handlers when something was thrown. *)
Definition error_response : NextResponse :=
  {| status := 500; body := error_body |}.

End Proxy.

(** ** Whole store calls and runs with [reset] *)

Module Session.
Import JS Http Eff Store.
Local Open Scope eff_scope.

(** One whole call of [initialize] with nothing else running in between. *)
Definition initialize (backend : request -> fetch_outcome) (now : Z) : M unit :=
  req <- initialize_begin ;;
  initialize_settle (backend req) now.

(** [handleToggle] of [ModeToggle]: [switchMode] with the other mode. *)
Definition handleToggle (backend : request -> fetch_outcome) (now : Z) : M unit :=
  s <- get ;;
  switchMode backend now (handleToggle_newMode s).

(** The steps of the store, [reset()] included. A [Reset] stands for the
    call up to its return; the answer to the request of its [initialize]
    is a later [InitializeSettle] step. *)
Inductive event : Type :=
| Step (a : action)
| Reset (now : Z).

Definition apply (s : AgentState) (e : event) : AgentState :=
  match e with
  | Step a => perform s a
  | Reset now => (reset now s).2
  end.

Definition run_events (s : AgentState) (es : list event) : AgentState :=
  fold_left apply es s.

(** In text mode the store holds no connection details. *)
Definition text_without_connection (s : AgentState) : Prop :=
  mode s = text -> connectionDetails s = VNull.

(** [m] takes every state to a state related to it by [R]. *)
Definition keeps {A} (R : relation AgentState) (m : M A) : Prop :=
  forall s, R s (m s).2.

(** Two relations between a state and a later one. *)
Definition same_session (s s' : AgentState) : Prop := sessionId s' = sessionId s.

Definition still_text_without_connection (s s' : AgentState) : Prop :=
  text_without_connection s -> text_without_connection s'.

(** A backend that answers every request with a JSON body other than
    [null]. *)
Definition replies_json (backend : request -> fetch_outcome) : Prop :=
  forall req, exists code data,
    backend req = Response code (Some data) /\ nullish data = false.

End Session.

(** ** The chat popup, the transcription view and the microphone toggle *)

Module Chat.
Import JS Http Eff Store.
Local Open Scope eff_scope.

(** *** [String.prototype.trim]

    The strings of the model hold text as UTF-8. [code_points] reads the
    characters back, one number per character; a byte that starts no
    character gives U+FFFD. [trim] removes, at both ends, the white space
    and line terminators of ECMAScript: tab, line feed, vertical tab, form
    feed, carriage return, space, no-break space, U+1680, U+2000 to
    U+200A, U+2028, U+2029, U+202F, U+205F, U+3000 and U+FEFF. All of
    them are below U+10000, where a character is one UTF-16 code unit, so
    that trimming characters is trimming code units. *)
Fixpoint code_points (s : string) : list N :=
  match s with
  | EmptyString => []
  | String c0 r0 =>
      let b0 := Ascii.N_of_ascii c0 in
      if N.ltb b0 128 then b0 :: code_points r0
      else if N.leb 192 b0 && N.ltb b0 224 then
        match r0 with
        | String c1 r1 =>
            ((b0 - 192) * 64 + (Ascii.N_of_ascii c1 - 128))%N :: code_points r1
        | _ => 65533%N :: code_points r0
        end
      else if N.leb 224 b0 && N.ltb b0 240 then
        match r0 with
        | String c1 (String c2 r2) =>
            ((b0 - 224) * 4096 + (Ascii.N_of_ascii c1 - 128) * 64
             + (Ascii.N_of_ascii c2 - 128))%N :: code_points r2
        | _ => 65533%N :: code_points r0
        end
      else if N.leb 240 b0 && N.ltb b0 248 then
        match r0 with
        | String c1 (String c2 (String c3 r3)) =>
            ((b0 - 240) * 262144 + (Ascii.N_of_ascii c1 - 128) * 4096
             + (Ascii.N_of_ascii c2 - 128) * 64
             + (Ascii.N_of_ascii c3 - 128))%N :: code_points r3
        | _ => 65533%N :: code_points r0
        end
      else 65533%N :: code_points r0
  end.

Definition is_white (c : N) : bool :=
  N.eqb c 9 || N.eqb c 10 || N.eqb c 11 || N.eqb c 12 || N.eqb c 13
  || N.eqb c 32 || N.eqb c 160 || N.eqb c 5760
  || (N.leb 8192 c && N.leb c 8202)
  || N.eqb c 8232 || N.eqb c 8233 || N.eqb c 8239 || N.eqb c 8287
  || N.eqb c 12288 || N.eqb c 65279.

Fixpoint trim_start (l : list N) : list N :=
  match l with
  | [] => []
  | c :: r => if is_white c then trim_start r else l
  end.

Fixpoint trim_end (l : list N) : list N :=
  match l with
  | [] => []
  | c :: r =>
      match trim_end r with
      | [] => if is_white c then [] else [c]
      | r' => c :: r'
      end
  end.

(** The string with the given bytes. *)
Definition of_bytes (l : list N) : string :=
  String.string_of_list_ascii (Ascii.ascii_of_N <$> l).

(** The characters of [s.trim()]. *)
Definition trim (s : string) : list N := trim_end (trim_start (code_points s)).

(** A string is truthy when it has a character. *)
Definition truthy_text (l : list N) : bool :=
  match l with
  | [] => false
  | _ :: _ => true
  end.

(** Every character is white space. *)
Fixpoint all_white (l : list N) : bool :=
  match l with
  | [] => true
  | c :: r => is_white c && all_white r
  end.

(** The string holds no hyphen. *)
Definition no_dash (s : string) : Prop :=
  forall a b, s <> a ++ ("-" ++ b).

Section Popup.
Context {Sdk : Type}.

(** What [ChatPopup] and the [TranscriptionView] inside it work on. Both
    components call [useCombinedTranscriptions], and each call has a
    [manualMessages] state of its own; the arrays of the SDK hooks are the
    same for both. [message] is the content of the input field. *)
Record Screen : Type := mkScreen {
  store : AgentState;
  sdk_agent : list (Transcriptions.ReceivedSegment Sdk);
  sdk_user : list (Transcriptions.ReceivedSegment Sdk);
  popup_manual : list (Transcriptions.TranscriptionSegment Sdk);
  view_manual : list (Transcriptions.TranscriptionSegment Sdk);
  message : string
}.

(** The hook as called by [ChatPopup]. *)
Definition popup_hook (u : Screen) : Transcriptions.HookState Sdk :=
  {| Transcriptions.agentTranscriptions := sdk_agent u;
     Transcriptions.userTranscriptions := sdk_user u;
     Transcriptions.manualMessages := popup_manual u |}.

(** The hook as called by [TranscriptionView]. *)
Definition view_hook (u : Screen) : Transcriptions.HookState Sdk :=
  {| Transcriptions.agentTranscriptions := sdk_agent u;
     Transcriptions.userTranscriptions := sdk_user u;
     Transcriptions.manualMessages := view_manual u |}.

Definition initial_screen (now : Z) : Screen :=
  {| store := initial_state now;
     sdk_agent := []; sdk_user := [];
     popup_manual := []; view_manual := [];
     message := EmptyString |}.

(** [setMessage(text)] *)
Definition setMessage (t : string) (u : Screen) : Screen :=
  {| store := store u; sdk_agent := sdk_agent u; sdk_user := sdk_user u;
     popup_manual := popup_manual u; view_manual := view_manual u;
     message := t |}.

(** [handleSendMessage] of the popup that uses the store. A blank message
    does nothing. In text mode [sendTextMessage(message)] is called and
    not awaited: its part before the request runs; in voice mode
    [addManualMessage(message)] of the popup's hook is called. Then the
    input field is emptied. The request made, if any, is returned. *)
Definition handleSendMessage (now : Z) (suffix : string) (u : Screen)
    : Screen * option request :=
  if truthy_text (trim (message u)) then
    match mode (store u) with
    | text =>
        let r := sendTextMessage_begin (message u) now (store u) in
        (setMessage EmptyString
           {| store := r.2; sdk_agent := sdk_agent u; sdk_user := sdk_user u;
              popup_manual := popup_manual u; view_manual := view_manual u;
              message := message u |},
         match r.1 with Normal req => Some req | Thrown _ => None end)
    | voice =>
        (setMessage EmptyString
           {| store := store u; sdk_agent := sdk_agent u; sdk_user := sdk_user u;
              popup_manual :=
                Transcriptions.manualMessages
                  (Transcriptions.addManualMessage (message u) None now suffix
                     (popup_hook u));
              view_manual := view_manual u;
              message := message u |},
         None)
    end
  else (u, None).

(** [handleKeyDown]: only the Enter key sends. *)
Definition handleKeyDown (key : string) (now : Z) (suffix : string) (u : Screen)
    : Screen * option request :=
  if String.eqb key "Enter" then handleSendMessage now suffix u else (u, None).

(** What the user and the SDK can do to the screen. *)
Inductive ui_event : Type :=
| Typed (t : string)
| ClickSend (now : Z) (suffix : string)
| KeyDown (key : string) (now : Z) (suffix : string)
| AgentSegments (l : list (Transcriptions.ReceivedSegment Sdk))
| UserSegments (l : list (Transcriptions.ReceivedSegment Sdk))
| StoreStep (e : Session.event).

Definition ui_step (u : Screen) (e : ui_event) : Screen :=
  match e with
  | Typed t => setMessage t u
  | ClickSend now suffix => (handleSendMessage now suffix u).1
  | KeyDown key now suffix => (handleKeyDown key now suffix u).1
  | AgentSegments l =>
      {| store := store u; sdk_agent := l; sdk_user := sdk_user u;
         popup_manual := popup_manual u; view_manual := view_manual u;
         message := message u |}
  | UserSegments l =>
      {| store := store u; sdk_agent := sdk_agent u; sdk_user := l;
         popup_manual := popup_manual u; view_manual := view_manual u;
         message := message u |}
  | StoreStep e =>
      {| store := Session.apply (store u) e;
         sdk_agent := sdk_agent u; sdk_user := sdk_user u;
         popup_manual := popup_manual u; view_manual := view_manual u;
         message := message u |}
  end.

Definition ui_run (u : Screen) (es : list ui_event) : Screen := fold_left ui_step es u.

(** The list that [TranscriptionView] renders. *)
Definition rendered (u : Screen) : list (Transcriptions.TranscriptionSegment Sdk) :=
  Transcriptions.combinedTranscriptions (view_hook u).

(** The effect of [TranscriptionView]: the element
    [combinedTranscriptions[combinedTranscriptions.length - 1]], when
    there is one, names by its [id] the element scrolled into view. *)
Definition scroll_target (l : list (Transcriptions.TranscriptionSegment Sdk))
    : option string :=
  Transcriptions.id <$> last l.

End Popup.

Arguments Screen : clear implicits.
Arguments ui_event : clear implicits.

(** *** [toggleVoice] *)

(** The calls that [toggleVoice] makes on the room and on the network.
    [FetchConnectionDetails url] is [fetch(url)] followed by
    [response.json()]; [url] is the text of the URL object. *)
Inductive sdk_call : Type :=
| Connect (url token : value)
| SetMicrophoneEnabled (enabled : bool)
| FetchConnectionDetails (url : string).

(** [process.env.NEXT_PUBLIC_CONN_DETAILS_ENDPOINT ?? "/api/connection-details"] *)
Definition conn_details_endpoint (env : option string) : string :=
  default "/api/connection-details" env.

(** The state [isVoiceActive] of the popup and the calls made so far. *)
Record Voice : Type := mkVoice {
  isVoiceActive : bool;
  calls : list sdk_call
}.

Definition setIsVoiceActive (b : bool) (v : Voice) : Voice :=
  {| isVoiceActive := b; calls := calls v |}.

(** An awaited call: [world] tells how it ends. For a
    [FetchConnectionDetails] the value is the parsed body. *)
Definition await_call (world : sdk_call -> completion value) (c : sdk_call)
    : Eff.M Voice value :=
  set (fun v => {| isVoiceActive := isVoiceActive v; calls := (calls v ++ [c])%list |}) ;;
  lift (world c).

(** [toggleVoice] of the popup that uses the store. [room] tells whether
    the room of the context is there, [disconnected] whether [agentState]
    is ["disconnected"], [connectionDetails] is the field of the store.
    [new_URL endpoint] is the outcome of
    [new URL(endpoint, window.location.origin)] followed by [toString()]:
    the text of the URL, or the error thrown for an endpoint that cannot
    be parsed. Nothing is caught: a throw ends the call. *)
Definition toggleVoice (world : sdk_call -> completion value)
    (new_URL : string -> completion string) (env : option string)
    (room disconnected : bool) (connectionDetails : value) : Eff.M Voice unit :=
  if negb room then ret tt
  else
    v <- get ;;
    if isVoiceActive v then
      await_call world (SetMicrophoneEnabled false) ;;
      set (setIsVoiceActive false)
    else
      (if disconnected then
         if truthy connectionDetails then
           url <- lift (get_prop connectionDetails "url") ;;
           token <- lift (get_prop connectionDetails "token") ;;
           await_call world (Connect url token) ;;
           ret tt
         else
           url <- lift (new_URL (conn_details_endpoint env)) ;;
           data <- await_call world (FetchConnectionDetails url) ;;
           serverUrl <- lift (get_prop data "serverUrl") ;;
           participantToken <- lift (get_prop data "participantToken") ;;
           await_call world (Connect serverUrl participantToken) ;;
           ret tt
       else ret tt) ;;
      await_call world (SetMicrophoneEnabled true) ;;
      set (setIsVoiceActive true).

End Chat.

(** ** The store behind the proxy route *)

Module Wiring.
Import JS Http.

(** What [fetch] in the browser meets when a route handler has answered
    with [NextResponse.json(data, init)]: the status and the body parsed
    back. Writing a JSON value out and parsing it gives the value back, and
    the bodies the handlers send are JSON values. *)
Definition answered (r : Proxy.NextResponse) : fetch_outcome :=
  Response (Proxy.status r) (Some (Proxy.body r)).

End Wiring.

(** * Properties *)

(** ** Values *)

Module JSFacts.
Import JS.

Lemma get_prop_nullish v k : nullish v = true -> get_prop v k = Thrown TypeError.
Proof. destruct v; simpl; congruence. Qed.

Lemma get_prop_not_nullish v k :
  nullish v = false -> exists x, get_prop v k = Normal x.
Proof. destruct v; simpl; try congruence; eauto. Qed.

Lemma get_prop_Normal v k x : get_prop v k = Normal x -> nullish v = false.
Proof. destruct v; simpl; congruence. Qed.

Lemma truthy_not_nullish v : truthy v = true -> nullish v = false.
Proof. destruct v; simpl; congruence. Qed.

(** *** [sort] *)

Section Sort.
Context {A : Type} (cmp : A -> A -> Z).

Lemma sort_insert_perm x l : sort_insert cmp x l ≡ₚ x :: l.
Proof.
  induction l as [|y l IH]; simpl; [done|].
  destruct (Z.leb (cmp x y) 0); [done|].
  rewrite IH. apply Permutation_swap.
Qed.

Lemma sort_perm l : sort cmp l ≡ₚ l.
Proof.
  induction l as [|x l IH]; [done|].
  unfold sort in *. simpl. by rewrite sort_insert_perm, IH.
Qed.

Lemma sort_length l : length (sort cmp l) = length l.
Proof. apply Permutation_length, sort_perm. Qed.

(** When [cmp] orders consistently, the result is in ascending order. *)
Hypothesis cmp_total : forall a b, cmp a b <= 0 \/ cmp b a <= 0.
Hypothesis cmp_trans : forall a b c, cmp a b <= 0 -> cmp b c <= 0 -> cmp a c <= 0.

Lemma sort_insert_sorted x l :
  StronglySorted (fun a b => cmp a b <= 0) l ->
  StronglySorted (fun a b => cmp a b <= 0) (sort_insert cmp x l).
Proof.
  induction 1 as [|y l Hl IH Hy]; simpl.
  - repeat constructor.
  - destruct (Z.leb_spec (cmp x y) 0) as [Hxy|Hxy].
    + constructor; [by constructor|].
      constructor; [exact Hxy|].
      eapply Forall_impl; [exact Hy|]. intros z Hz. by eapply cmp_trans.
    + constructor; [exact IH|].
      rewrite sort_insert_perm. constructor; [|exact Hy].
      destruct (cmp_total x y); [lia|done].
Qed.

Lemma sort_sorted l : StronglySorted (fun a b => cmp a b <= 0) (sort cmp l).
Proof.
  induction l as [|x l IH]; [constructor|].
  unfold sort in *. simpl. by apply sort_insert_sorted.
Qed.

End Sort.

(** The sort is stable: for a comparator that subtracts keys, the elements
    of one key come out in the order they went in. *)
Section Stable.
Context {A : Type} (key : A -> Z).

Lemma sort_insert_same_key k x l :
  filter (fun y => key y = k) (sort_insert (fun a b => key a - key b) x l)
  = filter (fun y => key y = k) (x :: l).
Proof.
  induction l as [|y l IH]; simpl; [done|].
  destruct (Z.leb_spec (key x - key y) 0) as [Hxy|Hxy]; [done|].
  rewrite filter_cons, IH, !filter_cons.
  destruct (decide (key y = k)), (decide (key x = k)); try done. lia.
Qed.

Lemma sort_stable k l :
  filter (fun y => key y = k) (sort (fun a b => key a - key b) l)
  = filter (fun y => key y = k) l.
Proof.
  induction l as [|x l IH]; [done|].
  unfold sort in *. simpl. rewrite sort_insert_same_key, !filter_cons, IH. done.
Qed.

End Stable.

Example join_foo_bar : join "/" ["foo"; "bar"] = "foo/bar".
Proof. reflexivity. Qed.

End JSFacts.

(** ** The session store *)

Module StoreFacts.
Import JS Http Eff Store JSFacts.
Local Open Scope eff_scope.

(** *** The history only grows *)

Lemma extends_ret {A} (a : A) : extends_history (ret a).
Proof. intros s. reflexivity. Qed.

Lemma extends_lift {A} (c : completion A) : extends_history (lift c).
Proof. intros s. reflexivity. Qed.

Lemma extends_get : extends_history get.
Proof. intros s. reflexivity. Qed.

Lemma extends_set (f : AgentState -> AgentState) :
  (forall s, conversationHistory s `prefix_of` conversationHistory (f s)) ->
  extends_history (set f).
Proof. intros Hf s. apply Hf. Qed.

Lemma extends_bind {A B} (m : M A) (k : A -> M B) :
  extends_history m -> (forall a, extends_history (k a)) ->
  extends_history (bind m k).
Proof.
  intros Hm Hk s. unfold bind. specialize (Hm s).
  destruct (m s) as [[a|e] s']; simpl in *; [|exact Hm].
  etransitivity; [exact Hm|apply Hk].
Qed.

Lemma extends_try_catch {A} (body : M A) (handler : error -> M A) :
  extends_history body -> (forall e, extends_history (handler e)) ->
  extends_history (try_catch body handler).
Proof.
  intros Hm Hk s. unfold try_catch. specialize (Hm s).
  destruct (body s) as [[a|e] s']; simpl in *; [exact Hm|].
  etransitivity; [exact Hm|apply Hk].
Qed.

Lemma extends_when_truthy (v : value) (m : M unit) :
  extends_history m -> extends_history (when_truthy v m).
Proof.
  intros Hm. unfold when_truthy. destruct (truthy v); [exact Hm|apply extends_ret].
Qed.

Lemma extends_addMessage (msg : Message) : extends_history (addMessage msg).
Proof. intros s. simpl. by apply prefix_app_r. Qed.

Create HintDb store_history.
#[local] Hint Resolve extends_ret extends_lift extends_get extends_bind
  extends_try_catch extends_when_truthy extends_addMessage : store_history.
#[local] Hint Extern 2 (extends_history (set _)) =>
  (apply extends_set; intros ?; reflexivity) : store_history.
#[local] Hint Extern 3 (extends_history (match ?x with _ => _ end)) =>
  destruct x : store_history.

Lemma extends_updateClientData d : extends_history (updateClientData d).
Proof. unfold updateClientData. auto 10 with store_history. Qed.

Lemma extends_switchMode_begin m : extends_history (switchMode_begin m).
Proof. unfold switchMode_begin. auto 10 with store_history. Qed.

Lemma extends_switchMode_settle m o now :
  extends_history (switchMode_settle m o now).
Proof. unfold switchMode_settle, set_backend_state. auto 20 with store_history. Qed.

Lemma extends_sendTextMessage_begin m now :
  extends_history (sendTextMessage_begin m now).
Proof. unfold sendTextMessage_begin. auto 10 with store_history. Qed.

Lemma extends_sendTextMessage_settle o now :
  extends_history (sendTextMessage_settle o now).
Proof.
  unfold sendTextMessage_settle. pose proof extends_updateClientData.
  auto 20 with store_history.
Qed.

Lemma extends_initialize_settle o now :
  extends_history (initialize_settle o now).
Proof. unfold initialize_settle, set_backend_state. auto 20 with store_history. Qed.

Lemma perform_extends s a :
  conversationHistory s `prefix_of` conversationHistory (perform s a).
Proof.
  destruct a; unfold perform.
  - apply extends_switchMode_begin.
  - apply extends_switchMode_settle.
  - apply extends_updateClientData.
  - apply extends_addMessage.
  - apply extends_sendTextMessage_begin.
  - apply extends_sendTextMessage_settle.
  - reflexivity.
  - apply extends_initialize_settle.
Qed.

Lemma run_extends acts s :
  conversationHistory s `prefix_of` conversationHistory (run s acts).
Proof.
  revert s. induction acts as [|a acts IH]; intros s; simpl.
  - reflexivity.
  - etransitivity; [apply perform_extends|apply IH].
Qed.

(** C8. Along every run of store steps other than [reset] (the
    synchronous actions and both parts of each asynchronous one, in any
    order), the conversation history at the start is a prefix of the
    history at the end, and the message at every position of the initial
    history (role, content and timestamp) is still at that position. *)
Theorem history_append_only (acts : list action) (s : AgentState) :
  conversationHistory s `prefix_of` conversationHistory (run s acts)
  /\ (forall (i : nat) (m : Message),
        conversationHistory s !! i = Some m ->
        conversationHistory (run s acts) !! i = Some m).
Proof.
  pose proof (run_extends acts s) as Hp.
  split; [exact Hp|].
  intros i m Hi. destruct Hp as [k ->]. by apply lookup_app_l_Some.
Qed.

Lemma history_append_only_witness :
  conversationHistory
    (run (perform (initial_state 1000) (SendTextMessageBegin "hi" 1001))
       [SwitchModeBegin voice;
        SendTextMessageSettle error_reply 1002;
        SwitchModeSettle voice Rejected 1003;
        UpdateClientData budget_delta;
        InitializeSettle (Response 200 None) 1004]) !! 0%nat
  = Some {| role := user; content := VStr "hi"; timestamp := 1001 |}.
Proof.
  apply (history_append_only _
           (perform (initial_state 1000) (SendTextMessageBegin "hi" 1001))).
  reflexivity.
Defined.

(** *** [switchMode] *)

Lemma switchMode_eq backend now newMode s :
  switchMode backend now newMode s =
  switchMode_settle newMode
    (backend (switchMode_request newMode (set_isTransitioning true s))) now
    (set_isTransitioning true s).
Proof. reflexivity. Qed.

Lemma switchMode_settle_thrown newMode o now s e :
  await_json o = Thrown e ->
  switchMode_settle newMode o now s = (Normal tt, set_isTransitioning false s).
Proof.
  intros H. unfold switchMode_settle, try_catch, bind, lift. rewrite H. reflexivity.
Qed.

Lemma switchMode_settle_voice data cd o now s :
  await_json o = Normal data ->
  get_prop data "connection_details" = Normal cd ->
  switchMode_settle voice o now s = (Normal tt, set_mode_settled voice cd s).
Proof.
  intros H1 H2. unfold switchMode_settle, try_catch, bind, lift.
  rewrite H1, H2. reflexivity.
Qed.

(** C1, as the code has it. When the request of [switchMode] throws,
    that is when [fetch] rejects or the body of the response is not JSON,
    the call returns normally, [isTransitioning] is false, and every other
    field of the store, [mode] and [connectionDetails] among them, is what
    it was before the call. *)
Theorem switchMode_thrown_aborts backend now newMode s e :
  await_json (backend (switchMode_request newMode (set_isTransitioning true s)))
    = Thrown e ->
  let r := switchMode backend now newMode s in
  r.1 = Normal tt /\
  mode r.2 = mode s /\
  isTransitioning r.2 = false /\
  clientData r.2 = clientData s /\
  conversationHistory r.2 = conversationHistory s /\
  currentStage r.2 = currentStage s /\
  sessionId r.2 = sessionId s /\
  connectionDetails r.2 = connectionDetails s.
Proof.
  intros H r. subst r.
  rewrite switchMode_eq, (switchMode_settle_thrown _ _ _ _ _ H).
  repeat split.
Qed.

Lemma switchMode_thrown_aborts_witness :
  await_json (Response 502 None) = Thrown SyntaxError /\
  let r := switchMode (fun _ => Response 502 None) 2000 text ann_in_voice in
  r.1 = Normal tt /\
  mode r.2 = mode ann_in_voice /\
  isTransitioning r.2 = false /\
  clientData r.2 = clientData ann_in_voice /\
  conversationHistory r.2 = conversationHistory ann_in_voice /\
  currentStage r.2 = currentStage ann_in_voice /\
  sessionId r.2 = sessionId ann_in_voice /\
  connectionDetails r.2 = connectionDetails ann_in_voice.
Proof.
  split; [reflexivity|].
  apply (switchMode_thrown_aborts (fun _ => Response 502 None) 2000 text
           ann_in_voice SyntaxError).
  reflexivity.
Defined.

(** C1, as stated, fails: a reply with status 500 and a JSON body is a
    failed backend call, yet [switchMode('voice')] then leaves text mode
    and overwrites the connection details. *)
Lemma switchMode_error_reply_switches :
  backend_call_failed error_reply = true /\
  let s := initial_state 1000 in
  let s' := (switchMode (fun _ => error_reply) 2000 voice s).2 in
  mode s = text /\ mode s' = voice /\
  connectionDetails s = VNull /\ connectionDetails s' = VUndef /\
  mode s' <> mode s.
Proof. repeat split. discriminate. Qed.

(** C5. When the request of [switchMode('voice')] resolves with a JSON
    body [data] that carries connection details [cd], the call returns
    normally with [mode] voice, [isTransitioning] false and
    [connectionDetails] equal to [cd]. *)
Theorem switchMode_voice_success backend now s data cd :
  await_json (backend (switchMode_request voice (set_isTransitioning true s)))
    = Normal data ->
  get_prop data "connection_details" = Normal cd ->
  let r := switchMode backend now voice s in
  r.1 = Normal tt /\
  mode r.2 = voice /\
  isTransitioning r.2 = false /\
  connectionDetails r.2 = cd.
Proof.
  intros H1 H2 r. subst r.
  rewrite switchMode_eq, (switchMode_settle_voice _ _ _ _ _ H1 H2).
  repeat split.
Qed.

Lemma switchMode_voice_success_witness :
  let cd := VObj (<["url" := VStr "wss://media"]> {[ "token" := VStr "t" ]}) in
  let data := VObj {[ "connection_details" := cd ]} in
  let r := switchMode (fun _ => Response 200 (Some data)) 2000 voice
             (initial_state 1000) in
  r.1 = Normal tt /\
  mode r.2 = voice /\
  isTransitioning r.2 = false /\
  connectionDetails r.2 = cd.
Proof.
  intros cd data.
  apply (switchMode_voice_success (fun _ => Response 200 (Some data)) 2000
           (initial_state 1000) data cd); reflexivity.
Defined.

(** C6, as the code has it. When the request of [switchMode('text')]
    resolves with a JSON body [data] that is not null, [msg] and [st]
    being its [message] and [state]: the call returns normally with
    [mode] text, [isTransitioning] false and [connectionDetails] null; the
    history gains one assistant message with content [msg] when [msg] is
    truthy and is unchanged otherwise; when [st] is truthy, the intake
    data is replaced by [st.client_data], or by the empty object when that
    is falsy, and the stage by [st.current_stage], or by ['greeting'] when
    that is falsy; when [st] is falsy both are unchanged. *)
Theorem switchMode_text_success backend now s data msg st :
  await_json (backend (switchMode_request text (set_isTransitioning true s)))
    = Normal data ->
  get_prop data "message" = Normal msg ->
  get_prop data "state" = Normal st ->
  let r := switchMode backend now text s in
  r.1 = Normal tt /\
  mode r.2 = text /\
  isTransitioning r.2 = false /\
  connectionDetails r.2 = VNull /\
  sessionId r.2 = sessionId s /\
  conversationHistory r.2 =
    (conversationHistory s ++
       (if truthy msg
        then [ {| role := assistant; content := msg; timestamp := now |} ]
        else []))%list /\
  (truthy st = false ->
     clientData r.2 = clientData s /\ currentStage r.2 = currentStage s) /\
  (truthy st = true ->
     exists cd cs,
       get_prop st "client_data" = Normal cd /\
       get_prop st "current_stage" = Normal cs /\
       clientData r.2 = js_or cd (VObj ∅) /\
       currentStage r.2 = js_or cs (VStr "greeting")).
Proof.
  intros H1 H2 H3 r. subst r. rewrite switchMode_eq.
  unfold switchMode_settle, try_catch, bind, lift, when_truthy.
  rewrite H1, H2. simpl.
  destruct (truthy msg) eqn:Hm; simpl; rewrite H3; simpl.
  all: rewrite ?app_nil_r.
  all: destruct (truthy st) eqn:Hst; simpl; [|by repeat split].
  all: destruct (get_prop_not_nullish st "client_data"
                   (truthy_not_nullish _ Hst)) as [cd Hcd].
  all: destruct (get_prop_not_nullish st "current_stage"
                   (truthy_not_nullish _ Hst)) as [cs Hcs].
  all: rewrite Hcd, Hcs; simpl; repeat split; try done; intros _; eauto 10.
Qed.

Lemma switchMode_text_success_witness :
  let r := switchMode (fun _ => budget_reply) 2000 text ann_in_voice in
  r.1 = Normal tt /\
  mode r.2 = text /\
  isTransitioning r.2 = false /\
  connectionDetails r.2 = VNull /\
  conversationHistory r.2 = [].
Proof.
  destruct (switchMode_text_success (fun _ => budget_reply) 2000 ann_in_voice
              (VObj {[ "state" :=
                 VObj (<["client_data" := budget_delta]>
                         {[ "current_stage" := VStr "budget" ]}) ]})
              VUndef
              (VObj (<["client_data" := budget_delta]>
                       {[ "current_stage" := VStr "budget" ]}))
              eq_refl eq_refl eq_refl)
    as (H1 & H2 & H3 & H4 & _ & H5 & _).
  repeat split; assumption.
Defined.

(** C6, as stated, fails: the intake data in the reply is not merged into
    the data collected so far, as [updateClientData] would do, but takes
    its place, and the client's name is lost. *)
Lemma switchMode_text_replaces_clientData :
  let s' := (switchMode (fun _ => budget_reply) 2000 text ann_in_voice).2 in
  let merged := clientData (updateClientData budget_delta ann_in_voice).2 in
  get_prop (clientData ann_in_voice) "full_name" = Normal (VStr "Ann") /\
  get_prop merged "full_name" = Normal (VStr "Ann") /\
  get_prop (clientData s') "full_name" = Normal VUndef /\
  clientData s' <> merged.
Proof.
  repeat split.
  intros H. apply (f_equal (fun v => get_prop v "full_name")) in H.
  vm_compute in H. discriminate.
Qed.

(** A switch into text mode that ends by a throw after the first [set]
    (the body of the reply is [null]) has text mode and no connection
    details all the same. *)
Lemma switchMode_text_null_body backend now s status :
  backend (switchMode_request text (set_isTransitioning true s))
    = Response status (Some VNull) ->
  switchMode backend now text s = (Normal tt, set_mode_settled text VNull s).
Proof. intros H. rewrite switchMode_eq, H. reflexivity. Qed.

(** *** [switchMode] does not read the flag *)

(** C10. For every state, whatever [isTransitioning] is, the first part
    of [switchMode] returns normally with [isTransitioning] true and with
    the POST request to [/api/intake/switch-mode] issued; the whole call
    consults the backend on that request; and the call does the same
    from a state whose flag is set as from one whose flag is clear, while
    the control [ModeToggle] is what is disabled by the flag. *)
Theorem switchMode_no_reentrancy_guard newMode s :
  let r := switchMode_begin newMode s in
  isTransitioning r.2 = true /\
  (exists req,
     r.1 = Normal req /\
     req = switchMode_request newMode r.2 /\
     req_url req = "/api/intake/switch-mode" /\
     req_method req = POST) /\
  (forall backend now,
     switchMode backend now newMode s =
     switchMode_settle newMode
       (backend (switchMode_request newMode r.2)) now r.2) /\
  (forall b backend now,
     switchMode backend now newMode (set_isTransitioning b s) =
     switchMode backend now newMode s) /\
  ModeToggle_disabled r.2 = true.
Proof.
  intros r. subst r. split; [done|]. split; [|done].
  eexists. repeat split.
Qed.

(** *** [sendTextMessage] *)

Lemma sendTextMessage_eq backend now now' message s :
  let s1 := set_conversationHistory
              (conversationHistory s ++
                 [ {| role := user; content := VStr message; timestamp := now |} ])%list
              s in
  sendTextMessage backend now now' message s =
  sendTextMessage_settle (backend (sendTextMessage_request message s1)) now' s1.
Proof. reflexivity. Qed.

(** The second part of [sendTextMessage] always returns normally and
    appends one assistant message. *)
Lemma sendTextMessage_settle_history o now s :
  let r := sendTextMessage_settle o now s in
  r.1 = Normal tt /\
  exists c,
    conversationHistory r.2 =
      (conversationHistory s ++
         [ {| role := assistant; content := c; timestamp := now |} ])%list /\
    (forall e, await_json o = Thrown e -> c = VStr sendTextMessage_fallback) /\
    (forall data, await_json o = Normal data -> nullish data = true ->
       c = VStr sendTextMessage_fallback) /\
    (forall data, await_json o = Normal data -> nullish data = false ->
       get_prop data "response" = Normal c).
Proof.
  intros r. subst r.
  unfold sendTextMessage_settle, try_catch, bind, lift, when_truthy.
  destruct (await_json o) as [data|e] eqn:Ho.
  - destruct (nullish data) eqn:Hn.
    + rewrite (get_prop_nullish _ "response" Hn). simpl.
      split; [done|]. eexists. split; [done|].
      repeat split; try done. intros d [= <-]. congruence.
    + destruct (get_prop_not_nullish data "response" Hn) as [r Hr].
      destruct (get_prop_not_nullish data "client_data" Hn) as [cd Hcd].
      destruct (get_prop_not_nullish data "state" Hn) as [st Hst].
      assert (Hc : forall e : error,
                 Normal data = Thrown e -> r = VStr sendTextMessage_fallback)
        by (intros ? [=]).
      assert (Hd : forall d, Normal data = Normal d -> nullish d = true ->
                             r = VStr sendTextMessage_fallback)
        by (intros ? [= <-]; congruence).
      assert (He : forall d, Normal data = Normal d -> nullish d = false ->
                             get_prop d "response" = Normal r)
        by (intros ? [= <-]; done).
      rewrite Hr. simpl. rewrite Hcd. simpl.
      destruct (truthy cd); simpl; rewrite Hst; simpl.
      all: destruct (truthy st) eqn:Ht; simpl; [|by eauto 10].
      all: destruct (get_prop_not_nullish st "current_stage"
                       (truthy_not_nullish _ Ht)) as [cs Hcs].
      all: rewrite Hcs; simpl; destruct (truthy cs); simpl; by eauto 10.
  - simpl. split; [done|]. eexists. split; [done|]. repeat split; try done.
Qed.

(** C2, as the code has it. The part of [sendTextMessage] before the
    request returns normally and appends one user message whose content is
    the input. The part after the request has settled, whatever ran on
    the store in between, returns normally and appends one assistant
    message: its content is the fixed apology when [fetch] rejected, when
    the body is not JSON and when the body is [null]; otherwise it is the
    [response] property of the body, whatever the status code of the
    reply. One whole call thus returns normally and appends the user
    message followed by one assistant message. *)
Theorem sendTextMessage_appends_one_each backend now now' message s :
  (exists req s1,
     sendTextMessage_begin message now s = (Normal req, s1) /\
     conversationHistory s1 =
       (conversationHistory s ++
          [ {| role := user; content := VStr message; timestamp := now |} ])%list) /\
  (forall o mid,
     let r := sendTextMessage_settle o now' mid in
     r.1 = Normal tt /\
     exists c,
       conversationHistory r.2 =
         (conversationHistory mid ++
            [ {| role := assistant; content := c; timestamp := now' |} ])%list /\
       (forall e, await_json o = Thrown e -> c = VStr sendTextMessage_fallback) /\
       (forall data, await_json o = Normal data -> nullish data = true ->
          c = VStr sendTextMessage_fallback) /\
       (forall data, await_json o = Normal data -> nullish data = false ->
          get_prop data "response" = Normal c)) /\
  (let r := sendTextMessage backend now now' message s in
   r.1 = Normal tt /\
   exists c,
     conversationHistory r.2 =
       (conversationHistory s ++
          [ {| role := user; content := VStr message; timestamp := now |};
            {| role := assistant; content := c; timestamp := now' |} ])%list).
Proof.
  split; [|split].
  - eexists _, _. split; reflexivity.
  - intros o mid. apply sendTextMessage_settle_history.
  - intros r. subst r. rewrite sendTextMessage_eq. cbv zeta.
    match goal with |- context [sendTextMessage_settle ?o ?n ?m] =>
      destruct (sendTextMessage_settle_history o n m) as (H1 & c & H2 & _) end.
    split; [exact H1|]. exists c. rewrite H2. simpl. by rewrite <- app_assoc.
Qed.

Lemma sendTextMessage_appends_one_each_witness :
  exists c,
    conversationHistory
      (sendTextMessage_settle Rejected 1002 (initial_state 1000)).2 =
      [ {| role := assistant; content := c; timestamp := 1002 |} ] /\
    c = VStr sendTextMessage_fallback.
Proof.
  destruct (sendTextMessage_appends_one_each (fun _ => Rejected) 1001 1002 "hi"
              (initial_state 1000)) as (_ & H & _).
  destruct (H Rejected (initial_state 1000)) as (_ & c & Hc & Hthrown & _).
  exists c. split; [exact Hc|]. exact (Hthrown NetworkFailure eq_refl).
Defined.

(** C2, as stated, fails: after a reply with status 500 and a JSON body,
    a failed backend call, the assistant message that is appended holds
    neither a text of the backend nor the fixed apology, but [undefined]. *)
Lemma sendTextMessage_error_reply_undefined :
  backend_call_failed error_reply = true /\
  conversationHistory
    (sendTextMessage (fun _ => error_reply) 1001 1002 "hi" (initial_state 1000)).2
  = [ {| role := user; content := VStr "hi"; timestamp := 1001 |};
      {| role := assistant; content := VUndef; timestamp := 1002 |} ] /\
  VUndef <> VStr sendTextMessage_fallback.
Proof. repeat split. discriminate. Qed.

(** The scenario of the specification: a reply with a response and a
    stage. *)
Example sendTextMessage_budget_scenario :
  let o := Response 200
             (Some (VObj (<["response" := VStr "Sure, what's your budget?"]>
                          {[ "state" := VObj {[ "current_stage" := VStr "budget" ]} ]}))) in
  let s' := (sendTextMessage (fun _ => o) 1001 1002 "What's your budget range?"
               (initial_state 1000)).2 in
  conversationHistory s' =
    [ {| role := user; content := VStr "What's your budget range?"; timestamp := 1001 |};
      {| role := assistant; content := VStr "Sure, what's your budget?"; timestamp := 1002 |} ]
  /\ currentStage s' = VStr "budget".
Proof. split; reflexivity. Qed.

(** *** [reset] *)

Lemma new_session_id_inj a b : new_session_id a = new_session_id b -> a = b.
Proof.
  unfold new_session_id, template_of_int. simpl. intros H.
  injection H as H. by apply (inj pretty).
Qed.

(** C7, as the code has it. When [reset()] returns, the request of its
    [initialize] having been made and not yet answered, the session
    identifier is ['session_'] followed by the clock reading; it differs
    from the preceding identifier whenever that one was made from another
    clock reading; the history is empty, [mode] is text, the intake data
    is the empty object and the connection details are null. *)
Theorem reset_fresh_session now s :
  let r := reset now s in
  r.1 = Normal (initialize_request r.2) /\
  sessionId r.2 = new_session_id now /\
  (forall t, sessionId s = new_session_id t -> t <> now ->
     sessionId r.2 <> sessionId s) /\
  conversationHistory r.2 = [] /\
  length (conversationHistory r.2) = 0%nat /\
  mode r.2 = text /\
  isTransitioning r.2 = false /\
  clientData r.2 = VObj ∅ /\
  currentStage r.2 = VStr "greeting" /\
  connectionDetails r.2 = VNull.
Proof.
  intros r. subst r. simpl. repeat split.
  intros t Ht Hne Heq. rewrite Ht in Heq.
  apply new_session_id_inj in Heq. congruence.
Qed.

Lemma reset_fresh_session_witness :
  sessionId (reset 2000 ann_in_voice).2 <> sessionId ann_in_voice.
Proof.
  destruct (reset_fresh_session 2000 ann_in_voice) as (_ & _ & H & _).
  apply (H 1000); [reflexivity|discriminate].
Defined.

(** C7, as stated, fails: a [reset()] within the millisecond in which the
    preceding identifier was made yields that identifier again. *)
Lemma reset_same_millisecond :
  sessionId (reset 1000 (initial_state 1000)).2 = sessionId (initial_state 1000).
Proof. reflexivity. Qed.

End StoreFacts.

(** ** The combined transcriptions *)

Module TranscriptionsFacts.
Import JS Transcriptions JSFacts.

Section Hook.
Context {Sdk : Type}.
Implicit Types (h : HookState Sdk) (es : list (event Sdk)).

Lemma manualMessages_run h es :
  manualMessages (run h es) = (manualMessages h ++ manual_of es)%list.
Proof.
  revert h. induction es as [|e es IH]; intros h; simpl.
  - by rewrite app_nil_r.
  - unfold run in *. simpl. rewrite IH. destruct e; simpl; [done|done|].
    by rewrite <- app_assoc.
Qed.

Lemma combined_sorted h :
  StronglySorted (fun a b => firstReceivedTime a <= firstReceivedTime b)
    (combinedTranscriptions h).
Proof.
  unfold combinedTranscriptions.
  assert (Hs : StronglySorted (fun a b => @by_firstReceivedTime Sdk a b <= 0)
                 (sort by_firstReceivedTime (tagged_sources h))).
  { apply sort_sorted; unfold by_firstReceivedTime; intros; lia. }
  induction Hs as [|x l Hl IH Hx]; constructor; [exact IH|].
  eapply Forall_impl; [exact Hx|].
  unfold by_firstReceivedTime. intros; simpl in *; lia.
Qed.

Lemma combined_perm h : combinedTranscriptions h ≡ₚ tagged_sources h.
Proof. apply sort_perm. Qed.

Lemma tagged_sources_length h :
  length (tagged_sources h) =
  (length (agentTranscriptions h) + length (userTranscriptions h)
   + length (manualMessages h))%nat.
Proof. unfold tagged_sources. rewrite !length_app, !length_fmap. lia. Qed.

(** Segments received at the same time keep the order agent, user,
    manual, and within each source their order there. *)
Lemma combined_stable h t :
  filter (fun x => firstReceivedTime x = t) (combinedTranscriptions h)
  = filter (fun x => firstReceivedTime x = t) (tagged_sources h).
Proof. apply (sort_stable firstReceivedTime). Qed.

(** C3. After every sequence of calls of [addManualMessage] and changes
    of the agent and user transcripts, from any start, the combined
    transcriptions are in non-decreasing order of [firstReceivedTime];
    their number is the sum of the lengths of the three sources; they are
    a rearrangement of the three sources put together, where an agent
    segment stands with its own id, text, time and further fields and
    with role assistant, a user segment likewise with role user, and a
    manual message as it is; so every element of every source is there.
    The manual messages are those of the start followed by one per call,
    in the order of the calls, each with the id made from the clock
    reading and the suffix, the text and role of the call (role user when
    none is given) and the clock reading as its time. *)
Theorem combinedTranscriptions_sorted_complete h es :
  let h' := run h es in
  let out := combinedTranscriptions h' in
  StronglySorted (fun a b => firstReceivedTime a <= firstReceivedTime b) out /\
  length out =
    (length (agentTranscriptions h') + length (userTranscriptions h')
     + length (manualMessages h'))%nat /\
  out ≡ₚ
    (((fun v => {| id := rcv_id v; text := rcv_text v; role := assistant;
                   firstReceivedTime := rcv_firstReceivedTime v;
                   rest := Some (rcv_rest v) |}) <$> agentTranscriptions h') ++
     ((fun v => {| id := rcv_id v; text := rcv_text v; role := user;
                   firstReceivedTime := rcv_firstReceivedTime v;
                   rest := Some (rcv_rest v) |}) <$> userTranscriptions h') ++
     manualMessages h')%list /\
  (forall v, v ∈ agentTranscriptions h' ->
     {| id := rcv_id v; text := rcv_text v; role := assistant;
        firstReceivedTime := rcv_firstReceivedTime v;
        rest := Some (rcv_rest v) |} ∈ out) /\
  (forall v, v ∈ userTranscriptions h' ->
     {| id := rcv_id v; text := rcv_text v; role := user;
        firstReceivedTime := rcv_firstReceivedTime v;
        rest := Some (rcv_rest v) |} ∈ out) /\
  (forall m, m ∈ manualMessages h' -> m ∈ out) /\
  manualMessages h' =
    (manualMessages h ++
     omap (fun e =>
             match e with
             | AddManualMessage t r now suffix =>
                 Some {| id := "manual-" ++ template_of_int now ++ "-" ++ suffix;
                         text := t;
                         role := default user r;
                         firstReceivedTime := now;
                         rest := None |}
             | _ => None
             end) es)%list.
Proof.
  intros h' out. subst out.
  split; [apply combined_sorted|].
  split; [by rewrite (Permutation_length (combined_perm h')), tagged_sources_length|].
  split; [apply combined_perm|].
  repeat split.
  - intros v Hv. rewrite combined_perm. unfold tagged_sources. rewrite !elem_of_app.
    left. by apply (list_elem_of_fmap_2 (with_role assistant)).
  - intros v Hv. rewrite combined_perm. unfold tagged_sources. rewrite !elem_of_app.
    right; left. by apply (list_elem_of_fmap_2 (with_role user)).
  - intros m Hm. rewrite combined_perm. unfold tagged_sources.
    rewrite !elem_of_app. auto.
  - apply manualMessages_run.
Qed.

End Hook.

(** Two manual messages typed around an agent segment and a user segment
    come out in the order of their times. *)
Example combined_example :
  let es : list (event unit) :=
    [ AddManualMessage "first" None 10 "abc1234";
      AgentUpdate [ mkReceived "a1" "hello" 5 tt ];
      UserUpdate [ mkReceived "u1" "hi" 7 tt ];
      AddManualMessage "second" (Some assistant) 6 "def5678" ] in
  (fun x => (id x, role x, firstReceivedTime x))
    <$> combinedTranscriptions (run initial_hook es)
  = [ ("a1", assistant, 5); ("manual-6-def5678", assistant, 6);
      ("u1", user, 7); ("manual-10-abc1234", user, 10) ].
Proof. reflexivity. Qed.

Lemma combinedTranscriptions_sorted_complete_witness :
  let h' : HookState unit :=
    run initial_hook
      [ AddManualMessage "first" None 10 "abc1234";
        AgentUpdate [ mkReceived "a1" "hello" 5 tt ] ] in
  {| id := "a1"; text := "hello"; role := assistant;
     firstReceivedTime := 5; rest := Some tt |} ∈ combinedTranscriptions h'
  /\ manualMessages h' =
       [ {| id := "manual-10-abc1234"; text := "first"; role := user;
            firstReceivedTime := 10; rest := None |} ].
Proof.
  intros h'.
  destruct (combinedTranscriptions_sorted_complete (@initial_hook unit)
              [ AddManualMessage "first" None 10 "abc1234";
                AgentUpdate [ mkReceived "a1" "hello" 5 tt ] ])
    as (_ & _ & _ & H & _ & _ & Hm).
  split.
  - apply (H (mkReceived "a1" "hello" 5 tt)). simpl. apply list_elem_of_here.
  - exact Hm.
Defined.

End TranscriptionsFacts.

(** ** The proxy route *)

Module ProxyFacts.
Import JS Http Eff Proxy JSFacts.

Lemma GET_eq env backend path calls :
  GET env backend path calls =
  (Normal match await_json (backend (forwarded Http.GET env path None)) with
          | Normal data => {| status := 200; body := data |}
          | Thrown _ => error_response
          end,
   (calls ++ [forwarded Http.GET env path None])%list).
Proof.
  unfold GET, try_catch, bind, fetch_json, bind, set, lift, ret. simpl.
  destruct (await_json _); reflexivity.
Qed.

Lemma POST_eq env backend payload path calls :
  POST env backend (Some payload) path calls =
  (Normal match await_json (backend (forwarded Http.POST env path (Some payload))) with
          | Normal data => {| status := 200; body := data |}
          | Thrown _ => error_response
          end,
   (calls ++ [forwarded Http.POST env path (Some payload)])%list).
Proof.
  unfold POST, try_catch, bind, fetch_json, bind, set, lift, ret. simpl.
  destruct (await_json _); reflexivity.
Qed.

Lemma POST_unparsed env backend path calls :
  POST env backend None path calls = (Normal error_response, calls).
Proof. reflexivity. Qed.

Lemma forwarded_url m env path payload :
  req_url (forwarded m env path payload)
  = INTAKE_API_BASE_URL env ++ "/" ++ join "/" path.
Proof. reflexivity. Qed.

Example forwarded_foo_bar :
  req_url (forwarded Http.GET (Some "http://backend:9000/api/intake")
             ["foo"; "bar"] None)
  = "http://backend:9000/api/intake/foo/bar".
Proof. reflexivity. Qed.

Lemma await_json_thrown o :
  (o = Rejected \/ exists code, o = Response code None) <->
  exists e, await_json o = Thrown e.
Proof.
  split.
  - intros [->|[code ->]]; simpl; eauto.
  - intros [e He]. destruct o as [|code [data|]]; simpl in He; eauto; discriminate.
Qed.

(** C4. A GET with path segments [path] calls [fetch] once, on the base
    URL followed by ["/"] and the segments joined by ["/"], without a
    body. When the backend answers with a JSON body, the handler returns
    that body with status 200; when [fetch] rejects or the body is not
    JSON, it returns status 500 with the body
    [{error: "Failed to communicate with intake agent"}]. In every case
    the handler returns a response and throws nothing. POST does the
    same, the parsed body of the incoming request being passed on as the
    body of the call; when the incoming body cannot be parsed, it answers
    500 in the same way without calling the backend. *)
Theorem proxy_forwards_or_500 env backend path calls :
  let get_req := forwarded Http.GET env path None in
  (req_url get_req = INTAKE_API_BASE_URL env ++ "/" ++ join "/" path /\
   req_method get_req = Http.GET /\
   req_body get_req = None) /\
  (forall code data,
     backend get_req = Response code (Some data) ->
     GET env backend path calls =
     (Normal {| status := 200; body := data |}, (calls ++ [get_req])%list)) /\
  ((backend get_req = Rejected \/ exists code, backend get_req = Response code None) ->
     GET env backend path calls = (Normal error_response, (calls ++ [get_req])%list)) /\
  (exists resp, (GET env backend path calls).1 = Normal resp) /\
  (forall payload,
     let post_req := forwarded Http.POST env path (Some payload) in
     (req_url post_req = INTAKE_API_BASE_URL env ++ "/" ++ join "/" path /\
      req_method post_req = Http.POST /\
      req_body post_req = Some payload) /\
     (forall code data,
        backend post_req = Response code (Some data) ->
        POST env backend (Some payload) path calls =
        (Normal {| status := 200; body := data |}, (calls ++ [post_req])%list)) /\
     ((backend post_req = Rejected \/
       exists code, backend post_req = Response code None) ->
        POST env backend (Some payload) path calls =
        (Normal error_response, (calls ++ [post_req])%list))) /\
  POST env backend None path calls = (Normal error_response, calls) /\
  (forall incoming, exists resp, (POST env backend incoming path calls).1 = Normal resp) /\
  error_response =
    {| status := 500;
       body := VObj {[ "error" := VStr "Failed to communicate with intake agent" ]} |}.
Proof.
  intros get_req. subst get_req.
  split; [by repeat split|].
  split. { intros code data H. rewrite GET_eq, H. reflexivity. }
  split. { intros H. apply await_json_thrown in H as [e He].
           rewrite GET_eq, He. reflexivity. }
  split. { rewrite GET_eq. eauto. }
  split.
  { intros payload post_req. subst post_req.
    split; [by repeat split|].
    split. { intros code data H. rewrite POST_eq, H. reflexivity. }
    intros H. apply await_json_thrown in H as [e He].
    rewrite POST_eq, He. reflexivity. }
  split; [reflexivity|].
  split; [|reflexivity].
  intros [payload|]; [rewrite POST_eq|rewrite POST_unparsed]; eauto.
Qed.

Lemma proxy_forwards_or_500_witness :
  GET None (fun _ => Response 200 (Some (VObj {[ "greeting" := VStr "Hello" ]})))
    ["initial-greeting"; "session_1000"] []
  = (Normal {| status := 200; body := VObj {[ "greeting" := VStr "Hello" ]} |},
     [ {| req_url := "http://localhost:8000/api/intake/initial-greeting/session_1000";
          req_method := Http.GET;
          req_headers := [("Content-Type", "application/json")];
          req_body := None |} ]).
Proof.
  destruct (proxy_forwards_or_500 None
              (fun _ => Response 200 (Some (VObj {[ "greeting" := VStr "Hello" ]})))
              ["initial-greeting"; "session_1000"] []) as (_ & H & _).
  apply (H 200). reflexivity.
Defined.

(** C9. Whatever the status code of the backend's answer, 404 and 500
    included, when its body is JSON both handlers return that body with
    status 200. A handler returns a status other than 200 only as the
    fixed 500 answer, and then something was thrown: [fetch] rejected,
    the body of the backend's answer was not JSON or, for POST, the body
    of the incoming request could not be parsed. *)
Theorem proxy_drops_backend_status env backend path calls :
  (forall code data,
     backend (forwarded Http.GET env path None) = Response code (Some data) ->
     (GET env backend path calls).1 = Normal {| status := 200; body := data |}) /\
  (forall payload code data,
     backend (forwarded Http.POST env path (Some payload)) = Response code (Some data) ->
     (POST env backend (Some payload) path calls).1
     = Normal {| status := 200; body := data |}) /\
  (forall resp,
     (GET env backend path calls).1 = Normal resp -> status resp <> 200 ->
     resp = error_response /\ status resp = 500 /\
     exists e, await_json (backend (forwarded Http.GET env path None)) = Thrown e) /\
  (forall incoming resp,
     (POST env backend incoming path calls).1 = Normal resp -> status resp <> 200 ->
     resp = error_response /\ status resp = 500 /\
     (incoming = None \/
      exists payload e,
        incoming = Some payload /\
        await_json (backend (forwarded Http.POST env path (Some payload))) = Thrown e)).
Proof.
  split. { intros code data H. rewrite GET_eq, H. reflexivity. }
  split. { intros payload code data H. rewrite POST_eq, H. reflexivity. }
  split.
  - intros resp. rewrite GET_eq. simpl.
    destruct (await_json _) as [data|e]; intros [= <-] Hne; simpl in *; [done|eauto].
  - intros [payload|] resp.
    + rewrite POST_eq. simpl.
      destruct (await_json _) as [data|e] eqn:He; intros [= <-] Hne; simpl in *; [done|].
      repeat split. right. eauto.
    + rewrite POST_unparsed. simpl. intros [= <-] _. auto.
Qed.

Lemma proxy_drops_backend_status_witness :
  (GET None (fun _ => Response 404 (Some (VObj {[ "detail" := VStr "Not Found" ]})))
     ["no-such-route"] []).1
  = Normal {| status := 200; body := VObj {[ "detail" := VStr "Not Found" ]} |}.
Proof.
  destruct (proxy_drops_backend_status None
              (fun _ => Response 404 (Some (VObj {[ "detail" := VStr "Not Found" ]})))
              ["no-such-route"] []) as (H & _).
  apply (H 404). reflexivity.
Defined.

End ProxyFacts.

(** ** More on the session store *)

Module SessionFacts.
Import JS Http Eff Store Session JSFacts StoreFacts.
Local Open Scope eff_scope.

(** *** What every step keeps *)

Section Keeps.
Context (R : relation AgentState) `{!PreOrder R}.

Lemma keeps_ret {A} (a : A) : keeps R (ret a).
Proof. intros s. reflexivity. Qed.

Lemma keeps_lift {A} (c : completion A) : keeps R (lift c).
Proof. intros s. reflexivity. Qed.

Lemma keeps_get : keeps R get.
Proof. intros s. reflexivity. Qed.

Lemma keeps_bind {A B} (m : M A) (k : A -> M B) :
  keeps R m -> (forall a, keeps R (k a)) -> keeps R (bind m k).
Proof.
  intros Hm Hk s. unfold bind. specialize (Hm s).
  destruct (m s) as [[a|e] s']; simpl in *; [|exact Hm].
  etransitivity; [exact Hm|apply Hk].
Qed.

Lemma keeps_try_catch {A} (body : M A) (handler : error -> M A) :
  keeps R body -> (forall e, keeps R (handler e)) ->
  keeps R (try_catch body handler).
Proof.
  intros Hm Hk s. unfold try_catch. specialize (Hm s).
  destruct (body s) as [[a|e] s']; simpl in *; [exact Hm|].
  etransitivity; [exact Hm|apply Hk].
Qed.

Lemma keeps_when_truthy v (m : M unit) : keeps R m -> keeps R (when_truthy v m).
Proof.
  intros Hm. unfold when_truthy. destruct (truthy v); [exact Hm|apply keeps_ret].
Qed.

(** It is enough that the partial updates passed to [set] are in [R]. A
    settled mode comes with connection details that are [null] when the
    mode is text. *)
Hypothesis R_flag : forall b s, R s (set_isTransitioning b s).
Hypothesis R_settled :
  forall m cd s, (m = text -> cd = VNull) -> R s (set_mode_settled m cd s).
Hypothesis R_clientData : forall d s, R s (set_clientData d s).
Hypothesis R_stage : forall st s, R s (set_currentStage st s).
Hypothesis R_history :
  forall h s, R s (set_conversationHistory (conversationHistory s ++ h)%list s).

Lemma keeps_addMessage msg : keeps R (addMessage msg).
Proof. intros s. apply R_history. Qed.

Lemma keeps_updateClientData d : keeps R (updateClientData d).
Proof. intros s. apply R_clientData. Qed.

Lemma keeps_backend_state d st : keeps R (set (set_backend_state d st)).
Proof.
  intros s. simpl. unfold set_backend_state.
  etransitivity; [apply R_clientData|apply R_stage].
Qed.

Create HintDb store_keeps.
#[local] Hint Resolve keeps_ret keeps_lift keeps_get keeps_bind keeps_try_catch
  keeps_when_truthy keeps_addMessage keeps_updateClientData
  keeps_backend_state : store_keeps.
#[local] Hint Extern 2 (keeps _ (set (set_isTransitioning _))) =>
  (intros ?; apply R_flag) : store_keeps.
#[local] Hint Extern 2 (keeps _ (set (set_currentStage _))) =>
  (intros ?; apply R_stage) : store_keeps.
#[local] Hint Extern 2 (keeps _ (set (set_mode_settled _ _))) =>
  (intros ?; apply R_settled; congruence) : store_keeps.
#[local] Hint Extern 3 (keeps _ (match ?x with _ => _ end)) =>
  destruct x : store_keeps.

Lemma keeps_perform s a : R s (perform s a).
Proof.
  destruct a; unfold perform.
  - revert s. change (keeps R (switchMode_begin newMode)).
    unfold switchMode_begin. auto 10 with store_keeps.
  - revert s. change (keeps R (switchMode_settle newMode o now)).
    unfold switchMode_settle. auto 20 with store_keeps.
  - apply keeps_updateClientData.
  - apply keeps_addMessage.
  - revert s. change (keeps R (sendTextMessage_begin message now)).
    unfold sendTextMessage_begin. auto 20 with store_keeps.
  - revert s. change (keeps R (sendTextMessage_settle o now)).
    unfold sendTextMessage_settle. auto 20 with store_keeps.
  - reflexivity.
  - revert s. change (keeps R (initialize_settle o now)).
    unfold initialize_settle. auto 20 with store_keeps.
Qed.

Lemma keeps_run s acts : R s (Store.run s acts).
Proof.
  revert s. induction acts as [|a acts IH]; intros s; simpl; [reflexivity|].
  etransitivity; [apply keeps_perform|apply IH].
Qed.

Hypothesis R_reset : forall now s, R s (initial_state now).

Lemma keeps_run_events s es : R s (run_events s es).
Proof.
  revert s. induction es as [|e es IH]; intros s; simpl; [reflexivity|].
  etransitivity; [|apply IH].
  destruct e; simpl; [apply keeps_perform|apply R_reset].
Qed.

End Keeps.

#[local] Instance same_session_preorder : PreOrder same_session.
Proof.
  split; [intros x; reflexivity|].
  intros x y z H1 H2. unfold same_session in *. congruence.
Qed.

#[local] Instance still_text_without_connection_preorder :
  PreOrder still_text_without_connection.
Proof.
  split; [intros x H; exact H|].
  intros x y z H1 H2 H. exact (H2 (H1 H)).
Qed.

(** X11. No step of the store other than [reset] changes the session
    identifier, whatever the backend answers and in whatever order the
    parts of the asynchronous calls run. *)
Theorem sessionId_changes_only_by_reset s acts :
  sessionId (Store.run s acts) = sessionId s.
Proof. by apply (keeps_run same_session). Qed.

(** X12. A store that holds no connection details while in text mode
    stays so along every run of steps, [reset] included: whenever [mode]
    is text, [connectionDetails] is [null]. The store as created is such a
    store. *)
Theorem text_without_connection_kept s es :
  text_without_connection s -> text_without_connection (run_events s es).
Proof.
  apply (keeps_run_events still_text_without_connection);
    unfold still_text_without_connection, text_without_connection; simpl; tauto.
Qed.

Lemma text_without_connection_kept_witness :
  text_without_connection
    (run_events (initial_state 1000)
       [ Step (SwitchModeBegin voice);
         Step (SwitchModeSettle voice
                 (Response 200 (Some (VObj {[ "connection_details" := VStr "cd" ]}))) 1001);
         Step (SwitchModeSettle text (Response 200 (Some VNull)) 1002);
         Reset 1003 ]).
Proof.
  apply (text_without_connection_kept (initial_state 1000)).
  intros _. reflexivity.
Defined.

(** *** [switchMode] on every path *)

Lemma switchMode_settle_always newMode o now s :
  let r := switchMode_settle newMode o now s in
  r.1 = Normal tt /\ isTransitioning r.2 = false.
Proof.
  intros r. subst r.
  unfold switchMode_settle, try_catch, bind, lift, when_truthy.
  destruct (await_json o) as [data|e]; [|done].
  destruct newMode.
  - simpl. destruct (get_prop data "message") as [msg|]; [|done]. simpl.
    destruct (truthy msg); simpl.
    all: destruct (get_prop data "state") as [st|]; [|done]; simpl.
    all: destruct (truthy st); [|done]; simpl.
    all: destruct (get_prop st "client_data") as [cd|]; [|done]; simpl.
    all: destruct (get_prop st "current_stage") as [cs|]; done.
  - destruct (get_prop data "connection_details"); done.
Qed.

(** X1. Whatever the state, the target mode and the outcome of the
    request, a whole call of [switchMode] returns normally and leaves
    [isTransitioning] false; so does its second part from any state. *)
Theorem switchMode_always_settles backend now newMode s :
  (let r := switchMode backend now newMode s in
   r.1 = Normal tt /\ isTransitioning r.2 = false) /\
  (forall o mid,
     let r := switchMode_settle newMode o now mid in
     r.1 = Normal tt /\ isTransitioning r.2 = false).
Proof.
  split.
  - intros r. subst r. rewrite switchMode_eq. apply switchMode_settle_always.
  - intros o mid. apply switchMode_settle_always.
Qed.

(** X2. When the answer to [switchMode('voice')] is a JSON object without
    a [connection_details] property, whatever its status code, the store
    goes to voice mode with [connectionDetails] undefined; the other
    fields keep their values. *)
Theorem switchMode_voice_missing_details backend now s code m :
  backend (switchMode_request voice (set_isTransitioning true s))
    = Response code (Some (VObj m)) ->
  m !! "connection_details" = None ->
  switchMode backend now voice s = (Normal tt, set_mode_settled voice VUndef s).
Proof.
  intros H1 H2. rewrite switchMode_eq, H1.
  unfold switchMode_settle, try_catch, bind, lift. simpl. rewrite H2. reflexivity.
Qed.

Lemma switchMode_voice_missing_details_witness :
  switchMode (fun _ => error_reply) 2000 voice (initial_state 1000)
  = (Normal tt, set_mode_settled voice VUndef (initial_state 1000)).
Proof.
  apply (switchMode_voice_missing_details (fun _ => error_reply) 2000
           (initial_state 1000) 500
           {[ "error" := VStr "Failed to communicate with intake agent" ]});
    reflexivity.
Defined.

(** X3. When the body of the answer is [null], [switchMode('voice')]
    changes nothing but the flag, which is cleared, while
    [switchMode('text')] has already set text mode and cleared the
    connection details when the property read throws: the store ends in
    text mode without connection details. *)
Theorem switchMode_nullish_body backend now newMode s code data :
  backend (switchMode_request newMode (set_isTransitioning true s))
    = Response code (Some data) ->
  nullish data = true ->
  switchMode backend now newMode s =
  (Normal tt,
   match newMode with
   | voice => set_isTransitioning false s
   | text => set_mode_settled text VNull s
   end).
Proof.
  intros H1 H2. rewrite switchMode_eq, H1.
  unfold switchMode_settle, try_catch, bind, lift. simpl.
  destruct newMode; simpl; rewrite (get_prop_nullish _ _ H2); reflexivity.
Qed.

Lemma switchMode_nullish_body_witness :
  switchMode (fun _ => Response 200 (Some VNull)) 2000 text ann_in_voice
  = (Normal tt, set_mode_settled text VNull ann_in_voice).
Proof.
  apply (switchMode_nullish_body (fun _ => Response 200 (Some VNull)) 2000 text
           ann_in_voice 200 VNull); reflexivity.
Defined.

(** *** The mode toggle *)

Lemma handleToggle_flips backend now s :
  replies_json backend ->
  mode (handleToggle backend now s).2 = handleToggle_newMode s
  /\ isTransitioning (handleToggle backend now s).2 = false.
Proof.
  intros Hb. unfold handleToggle, bind, get. simpl.
  rewrite switchMode_eq.
  split; [|apply switchMode_settle_always].
  destruct (Hb (switchMode_request (handleToggle_newMode s)
                  (set_isTransitioning true s))) as (code & data & -> & Hn).
  unfold switchMode_settle, try_catch, bind, lift, when_truthy. simpl.
  destruct (get_prop_not_nullish data "connection_details" Hn) as [cd Hcd].
  destruct (get_prop_not_nullish data "message" Hn) as [msg Hmsg].
  destruct (get_prop_not_nullish data "state" Hn) as [st Hst].
  unfold handleToggle_newMode. destruct (mode s); simpl.
  - rewrite Hcd. done.
  - rewrite Hmsg. simpl. destruct (truthy msg); simpl; rewrite Hst; simpl.
    all: destruct (truthy st) eqn:Ht; [|done]; simpl.
    all: destruct (get_prop_not_nullish st "client_data"
                     (truthy_not_nullish _ Ht)) as [c Hc].
    all: destruct (get_prop_not_nullish st "current_stage"
                     (truthy_not_nullish _ Ht)) as [c' Hc'].
    all: rewrite Hc, Hc'; done.
Qed.

(** X13. With a backend that answers every request by a JSON body other
    than [null], one click on the mode toggle changes the mode and a
    second click brings the first mode back; after each click
    [isTransitioning] is false, so the button is enabled again. *)
Theorem handleToggle_twice backend1 backend2 now1 now2 s :
  replies_json backend1 -> replies_json backend2 ->
  let s1 := (handleToggle backend1 now1 s).2 in
  let s2 := (handleToggle backend2 now2 s1).2 in
  mode s1 <> mode s /\ mode s2 = mode s /\
  ModeToggle_disabled s1 = false /\ ModeToggle_disabled s2 = false.
Proof.
  intros H1 H2 s1 s2. subst s1 s2. unfold ModeToggle_disabled.
  destruct (handleToggle_flips backend1 now1 s H1) as [Hm1 Hf1].
  destruct (handleToggle_flips backend2 now2
              (handleToggle backend1 now1 s).2 H2) as [Hm2 Hf2].
  rewrite Hm2, Hf2, Hf1. unfold handleToggle_newMode. rewrite Hm1.
  unfold handleToggle_newMode.
  split; [by destruct (mode s)|]. split; [by destruct (mode s)|]. done.
Qed.

Lemma handleToggle_twice_witness :
  let b := fun _ : request => Response 200 (Some (VObj ∅)) in
  let s1 := (handleToggle b 1001 (initial_state 1000)).2 in
  let s2 := (handleToggle b 1002 s1).2 in
  mode s1 <> mode (initial_state 1000) /\ mode s2 = mode (initial_state 1000) /\
  ModeToggle_disabled s1 = false /\ ModeToggle_disabled s2 = false.
Proof.
  intros b.
  apply (handleToggle_twice b b 1001 1002 (initial_state 1000));
    intros req; exists 200, (VObj ∅); split; reflexivity.
Defined.

(** *** [initialize] *)

Lemma initialize_settle_history o now s :
  let r := initialize_settle o now s in
  r.1 = Normal tt /\
  mode r.2 = mode s /\ isTransitioning r.2 = isTransitioning s /\
  sessionId r.2 = sessionId s /\ connectionDetails r.2 = connectionDetails s /\
  exists c,
    conversationHistory r.2 =
      (conversationHistory s ++
         [ {| role := assistant; content := c; timestamp := now |} ])%list /\
    (forall e, await_json o = Thrown e -> c = VStr initialize_fallback) /\
    (forall data, await_json o = Normal data -> nullish data = true ->
       c = VStr initialize_fallback) /\
    (forall data, await_json o = Normal data -> nullish data = false ->
       get_prop data "greeting" = Normal c).
Proof.
  intros r. subst r.
  unfold initialize_settle, try_catch, bind, lift, when_truthy.
  destruct (await_json o) as [data|e] eqn:Ho.
  - destruct (nullish data) eqn:Hn.
    + rewrite (get_prop_nullish _ "greeting" Hn). simpl.
      repeat split. eexists. split; [done|].
      repeat split; try done. intros d [= <-]. congruence.
    + destruct (get_prop_not_nullish data "greeting" Hn) as [r Hr].
      destruct (get_prop_not_nullish data "state" Hn) as [st Hst].
      assert (Hc : forall e : error,
                 Normal data = Thrown e -> r = VStr initialize_fallback)
        by (intros ? [=]).
      assert (Hd : forall d, Normal data = Normal d -> nullish d = true ->
                             r = VStr initialize_fallback)
        by (intros ? [= <-]; congruence).
      assert (He : forall d, Normal data = Normal d -> nullish d = false ->
                             get_prop d "greeting" = Normal r)
        by (intros ? [= <-]; done).
      rewrite Hr. simpl. rewrite Hst. simpl.
      destruct (truthy st) eqn:Ht; simpl; [|by eauto 15].
      destruct (get_prop_not_nullish st "client_data"
                  (truthy_not_nullish _ Ht)) as [cd Hcd].
      destruct (get_prop_not_nullish st "current_stage"
                  (truthy_not_nullish _ Ht)) as [cs Hcs].
      rewrite Hcd, Hcs. simpl. by eauto 15.
  - simpl. repeat split. eexists. split; [done|]. repeat split; try done.
Qed.

(** X4. The second part of [initialize], on every outcome of the request
    and from every state, returns normally and appends one assistant
    message; [mode], [isTransitioning], the session identifier and the
    connection details are untouched. The content of the message is the
    fixed greeting when [fetch] rejected, when the body is not JSON and
    when the body is [null]; otherwise it is the [greeting] property of
    the body. *)
Theorem initialize_appends_one_greeting o now s :
  let r := initialize_settle o now s in
  r.1 = Normal tt /\
  mode r.2 = mode s /\ isTransitioning r.2 = isTransitioning s /\
  sessionId r.2 = sessionId s /\ connectionDetails r.2 = connectionDetails s /\
  exists c,
    conversationHistory r.2 =
      (conversationHistory s ++
         [ {| role := assistant; content := c; timestamp := now |} ])%list /\
    (forall e, await_json o = Thrown e -> c = VStr initialize_fallback) /\
    (forall data, await_json o = Normal data -> nullish data = true ->
       c = VStr initialize_fallback) /\
    (forall data, await_json o = Normal data -> nullish data = false ->
       get_prop data "greeting" = Normal c).
Proof. apply initialize_settle_history. Qed.

(** X5. [initialize] is not idempotent: two whole calls, whatever the
    backend answers to each, leave two more assistant messages at the end
    of the history. *)
Theorem initialize_twice_two_greetings backend1 backend2 now1 now2 s :
  let s1 := (initialize backend1 now1 s).2 in
  let s2 := (initialize backend2 now2 s1).2 in
  exists c1 c2,
    conversationHistory s2 =
      (conversationHistory s ++
         [ {| role := assistant; content := c1; timestamp := now1 |};
           {| role := assistant; content := c2; timestamp := now2 |} ])%list.
Proof.
  intros s1 s2. subst s1 s2. unfold initialize, initialize_begin.
  unfold bind at 1 3. simpl.
  match goal with |- context [initialize_settle ?o now1 s] =>
    destruct (initialize_settle_history o now1 s)
      as (_ & _ & _ & _ & _ & c1 & H1 & _) end.
  match goal with |- context [initialize_settle ?o now2 ?m] =>
    destruct (initialize_settle_history o now2 m)
      as (_ & _ & _ & _ & _ & c2 & H2 & _) end.
  exists c1, c2. rewrite H2, H1. by rewrite <- app_assoc.
Qed.

(** X6. When the answer to [initialize] is a JSON body with a truthy
    [state], the intake data of the store is replaced by
    [state.client_data], or by the empty object when that is falsy, and
    the stage by [state.current_stage], or by ['greeting'] when that is
    falsy: what the store held is dropped. With a falsy or missing
    [state] both keep their values. *)
Theorem initialize_replaces_state o now s data st :
  await_json o = Normal data ->
  get_prop data "state" = Normal st ->
  let r := initialize_settle o now s in
  (truthy st = false ->
     clientData r.2 = clientData s /\ currentStage r.2 = currentStage s) /\
  (truthy st = true ->
     exists cd cs,
       get_prop st "client_data" = Normal cd /\
       get_prop st "current_stage" = Normal cs /\
       clientData r.2 = js_or cd (VObj ∅) /\
       currentStage r.2 = js_or cs (VStr "greeting")).
Proof.
  intros Ho Hst r. subst r.
  unfold initialize_settle, try_catch, bind, lift, when_truthy. rewrite Ho.
  destruct (get_prop_not_nullish data "greeting"
              (get_prop_Normal _ _ _ Hst)) as [g Hg].
  rewrite Hg. simpl. rewrite Hst. simpl.
  destruct (truthy st) eqn:Ht; simpl; [|by split].
  destruct (get_prop_not_nullish st "client_data"
              (truthy_not_nullish _ Ht)) as [cd Hcd].
  destruct (get_prop_not_nullish st "current_stage"
              (truthy_not_nullish _ Ht)) as [cs Hcs].
  rewrite Hcd, Hcs. simpl. split; [done|]. intros _. eauto 10.
Qed.

Lemma initialize_replaces_state_witness :
  let st := VObj {[ "current_stage" := VStr "budget" ]} in
  let data := VObj (<["greeting" := VStr "Hello"]> {[ "state" := st ]}) in
  let r := initialize_settle (Response 200 (Some data)) 2000 ann_in_voice in
  clientData r.2 = VObj ∅ /\ currentStage r.2 = VStr "budget".
Proof.
  intros st data.
  destruct (initialize_replaces_state (Response 200 (Some data)) 2000
              ann_in_voice data st eq_refl eq_refl) as [_ H].
  destruct (H eq_refl) as (cd & cs & Hcd & Hcs & H1 & H2).
  injection Hcd as <-. injection Hcs as <-. split; [exact H1|exact H2].
Defined.

(** *** [updateClientData] *)

(** X7. [updateClientData(data)] returns normally and changes the intake
    data only. Afterwards each property of the intake data is the one of
    [data] when [data] has it (the last write wins) and is what it was
    otherwise; so a [data] without properties of its own, such as [null],
    a number or the empty object, takes no property away. *)
Theorem updateClientData_last_write_wins data s k :
  let r := updateClientData data s in
  r.1 = Normal tt /\
  own_props (clientData r.2) !! k =
    match own_props data !! k with
    | Some v => Some v
    | None => own_props (clientData s) !! k
    end /\
  mode r.2 = mode s /\ isTransitioning r.2 = isTransitioning s /\
  conversationHistory r.2 = conversationHistory s /\
  currentStage r.2 = currentStage s /\ sessionId r.2 = sessionId s /\
  connectionDetails r.2 = connectionDetails s.
Proof.
  intros r. subst r. simpl. repeat split.
  rewrite lookup_union.
  destruct (own_props data !! k), (own_props (clientData s) !! k); done.
Qed.

(** X8. Two updates in a row are one update by the two objects spread
    into one, the later over the earlier; and an update made twice is the
    update made once. *)
Theorem updateClientData_compose a b s :
  (updateClientData b (updateClientData a s).2).2
    = (updateClientData (spread2 a b) s).2
  /\ (updateClientData a (updateClientData a s).2).2 = (updateClientData a s).2.
Proof.
  split; simpl; unfold set_clientData, spread2; simpl.
  - by rewrite (assoc_L (∪)).
  - by rewrite (assoc_L (∪)), (idemp_L (∪)).
Qed.

(** *** [sendTextMessage]: what else changes *)

Lemma sendTextMessage_settle_fields o now s :
  let r := sendTextMessage_settle o now s in
  mode r.2 = mode s /\ isTransitioning r.2 = isTransitioning s /\
  sessionId r.2 = sessionId s /\ connectionDetails r.2 = connectionDetails s.
Proof.
  intros r. subst r.
  unfold sendTextMessage_settle, try_catch, bind, lift, when_truthy.
  destruct (await_json o) as [data|e]; [|done].
  destruct (get_prop data "response") as [resp|]; [|done]. simpl.
  destruct (get_prop data "client_data") as [cd|]; [|done]. simpl.
  destruct (truthy cd); simpl.
  all: destruct (get_prop data "state") as [st|]; [|done]; simpl.
  all: destruct (truthy st); [|done]; simpl.
  all: destruct (get_prop st "current_stage") as [cs|]; [|done]; simpl.
  all: destruct (truthy cs); done.
Qed.

(** X9. When the answer to [sendTextMessage] is a JSON body with
    [client_data] [cd] and [state] [st]: a truthy [cd] is spread over the
    intake data, whose other properties stay, and a falsy one leaves the
    intake data alone; the stage becomes [st.current_stage] when [st] and
    that stage are truthy and stays otherwise. On every outcome [mode],
    [isTransitioning], the session identifier and the connection details
    are untouched. *)
Theorem sendTextMessage_merges_intake o now s data cd st :
  await_json o = Normal data ->
  get_prop data "client_data" = Normal cd ->
  get_prop data "state" = Normal st ->
  let r := sendTextMessage_settle o now s in
  clientData r.2 = (if truthy cd then spread2 (clientData s) cd else clientData s) /\
  currentStage r.2 =
    match get_prop st "current_stage" with
    | Normal cs => if truthy st && truthy cs then cs else currentStage s
    | Thrown _ => currentStage s
    end /\
  (forall o' s',
     let r' := sendTextMessage_settle o' now s' in
     mode r'.2 = mode s' /\ isTransitioning r'.2 = isTransitioning s' /\
     sessionId r'.2 = sessionId s' /\ connectionDetails r'.2 = connectionDetails s').
Proof.
  intros Ho Hcd Hst r. subst r.
  split; [|split; [|intros o' s'; apply sendTextMessage_settle_fields]].
  all: unfold sendTextMessage_settle, try_catch, bind, lift, when_truthy.
  all: rewrite Ho.
  all: destruct (get_prop_not_nullish data "response"
                   (get_prop_Normal _ _ _ Hcd)) as [resp Hr].
  all: rewrite Hr; simpl; rewrite Hcd; simpl.
  all: destruct (truthy cd); simpl; rewrite Hst; simpl.
  all: destruct (truthy st) eqn:Ht; simpl.
  all: try (destruct (get_prop_not_nullish st "current_stage"
                        (truthy_not_nullish _ Ht)) as [cs Hcs];
            rewrite Hcs; simpl; destruct (truthy cs); simpl).
  all: try done.
  all: destruct (get_prop st "current_stage"); done.
Qed.

Lemma sendTextMessage_merges_intake_witness :
  let data := VObj (<["response" := VStr "Noted"]> {[ "client_data" := budget_delta ]}) in
  let r := sendTextMessage_settle (Response 200 (Some data)) 2000 ann_in_voice in
  get_prop (clientData r.2) "full_name" = Normal (VStr "Ann") /\
  get_prop (clientData r.2) "budget" = Normal (VStr "600k") /\
  currentStage r.2 = VStr "contact".
Proof.
  intros data r.
  destruct (sendTextMessage_merges_intake (Response 200 (Some data)) 2000
              ann_in_voice data budget_delta VUndef eq_refl eq_refl eq_refl)
    as (H1 & H2 & _).
  fold r in H1, H2. rewrite H1, H2. repeat split.
Defined.

(** X10. The request of [sendTextMessage] is a POST to
    [/api/intake/text-message] whose body holds the message, the session
    identifier and the state; the history in it is the history of the
    store followed by the message just typed, each entry with its role
    and content and without its timestamp. *)
Theorem sendTextMessage_request_body message now s :
  exists req body ag,
    (sendTextMessage_begin message now s).1 = Normal req /\
    req_url req = "/api/intake/text-message" /\ req_method req = POST /\
    req_body req = Some body /\
    get_prop body "message" = Normal (VStr message) /\
    get_prop body "session_id" = Normal (VStr (sessionId s)) /\
    get_prop body "agent_state" = Normal ag /\
    get_prop ag "client_data" = Normal (clientData s) /\
    get_prop ag "current_stage" = Normal (currentStage s) /\
    get_prop ag "conversation_history" =
      Normal (VArr ((message_snapshot <$> conversationHistory s) ++
                    [ VObj (<["role" := VStr "user"]>
                              (<["content" := VStr message]> ∅)) ])%list) /\
    (forall m, get_prop (message_snapshot m) "timestamp" = Normal VUndef).
Proof.
  set (s1 := set_conversationHistory
               (conversationHistory s ++
                  [ {| role := user; content := VStr message; timestamp := now |} ])%list
               s).
  exists (sendTextMessage_request message s1).
  eexists. exists (agent_state_snapshot s1).
  split; [reflexivity|]. split; [reflexivity|]. split; [reflexivity|].
  split; [reflexivity|]. split; [reflexivity|]. split; [reflexivity|].
  split; [reflexivity|]. split; [reflexivity|]. split; [reflexivity|].
  split; [|reflexivity].
  change (Normal (VArr (message_snapshot <$> conversationHistory s1)) =
          Normal (VArr ((message_snapshot <$> conversationHistory s) ++
                    [ VObj (<["role" := VStr "user"]>
                              (<["content" := VStr message]> ∅)) ])%list)).
  subst s1. simpl. by rewrite fmap_app.
Qed.

End SessionFacts.

(** ** More on the combined transcriptions *)

Module TranscriptionsMore.
Import JS JSFacts Transcriptions TranscriptionsFacts Chat.

(** *** An element not below the others goes last *)

Section SortLast.
Context {A : Type} (cmp : A -> A -> Z).

Lemma sort_insert_app_last y l x :
  cmp y x <= 0 ->
  sort_insert cmp y (l ++ [x]) = (sort_insert cmp y l ++ [x])%list.
Proof.
  intros Hy. induction l as [|z l IH]; simpl.
  - destruct (Z.leb_spec (cmp y x) 0); [done|lia].
  - destruct (Z.leb (cmp y z) 0); [done|]. by rewrite IH.
Qed.

Lemma sort_app_last l x :
  (forall y, y ∈ l -> cmp y x <= 0) ->
  sort cmp (l ++ [x]) = (sort cmp l ++ [x])%list.
Proof.
  induction l as [|y l IH]; intros Hl; [done|].
  unfold sort in *. simpl. rewrite IH.
  - apply sort_insert_app_last. apply Hl. left.
  - intros z Hz. apply Hl. by right.
Qed.

End SortLast.

(** *** Decimal numerals hold no hyphen *)

Lemma pretty_N_go_no_dash x s : no_dash s -> no_dash (pretty_N_go x s).
Proof.
  revert s. induction (N.lt_wf_0 x) as [x _ IH]; intros s Hs.
  assert (x = 0 \/ 0 < x)%N as [->|?] by lia.
  - by rewrite pretty_N_go_0.
  - rewrite pretty_N_go_step by done. apply IH; [by apply N.div_lt|].
    intros [|c a] b; simpl; intros [= Hc Hr].
    + revert Hc. unfold pretty_N_char. by repeat case_match.
    + by apply (Hs a b).
Qed.

Lemma no_dash_empty : no_dash EmptyString.
Proof. intros [|c a] b; simpl; discriminate. Qed.

Lemma pretty_nonneg_no_dash (n : Z) : 0 <= n -> no_dash (pretty n).
Proof.
  intros Hn. destruct n as [|p|p]; [| |lia].
  - intros [|c [|c' a]] b; simpl; discriminate.
  - unfold pretty, pretty_Z, pretty, pretty_positive, pretty, pretty_N.
    case_decide; [done|]. apply pretty_N_go_no_dash, no_dash_empty.
Qed.

Lemma app_dash_inj a1 a2 b1 b2 :
  no_dash a1 -> no_dash a2 ->
  a1 ++ ("-" ++ b1) = a2 ++ ("-" ++ b2) -> a1 = a2 /\ b1 = b2.
Proof.
  revert a2. induction a1 as [|c a1 IH]; intros [|c2 a2] H1 H2; simpl; intros Heq.
  - by injection Heq.
  - injection Heq as <- _. destruct (H2 EmptyString a2). done.
  - injection Heq as -> _. destruct (H1 EmptyString a1). done.
  - injection Heq as -> Heq. destruct (IH a2) as [-> ->]; [| |done|done].
    + intros a b ->. by apply (H1 (String c2 a) b).
    + intros a b ->. by apply (H2 (String c2 a) b).
Qed.

Section Hook.
Context {Sdk : Type}.
Implicit Types (h : HookState Sdk).

(** X14. Segments with the same [firstReceivedTime] come out in the order
    in which the sources are put together: the agent's, then the user's,
    then the manual ones, each source in its own order. *)
Theorem combined_ties_keep_source_order h t :
  filter (fun x => firstReceivedTime x = t) (combinedTranscriptions h)
  = filter (fun x => firstReceivedTime x = t) (tagged_sources h).
Proof. apply (sort_stable firstReceivedTime). Qed.

(** X15. For clock readings that are not negative, two manual messages
    have the same [id] exactly when they were made at the same clock
    reading with the same random suffix: the text and the role play no
    part, and nothing else makes two ids differ. *)
Theorem manual_id_inj (t1 t2 : string) r1 r2 now1 now2 sfx1 sfx2 :
  0 <= now1 -> 0 <= now2 ->
  id (@newMessage Sdk t1 r1 now1 sfx1) = id (@newMessage Sdk t2 r2 now2 sfx2) <->
  now1 = now2 /\ sfx1 = sfx2.
Proof.
  intros H1 H2. split; [|by intros [-> ->]].
  unfold newMessage, template_of_int. simpl. intros Heq.
  injection Heq as Heq.
  apply app_dash_inj in Heq as [Hn ->]; [|by apply pretty_nonneg_no_dash..].
  split; [|done]. by apply (inj pretty).
Qed.

(** X16. A manual message made at a clock reading that no segment
    exceeds is shown last: the combined transcriptions are the former
    ones followed by the new message. *)
Theorem addManualMessage_latest_goes_last t r now sfx h :
  (forall y, y ∈ tagged_sources h -> firstReceivedTime y <= now) ->
  combinedTranscriptions (addManualMessage t r now sfx h)
  = (combinedTranscriptions h ++ [newMessage t r now sfx])%list.
Proof.
  intros H. unfold combinedTranscriptions, tagged_sources, addManualMessage. simpl.
  rewrite !(assoc_L (++)%list).
  rewrite sort_app_last.
  - by rewrite <- !(assoc_L (++)%list).
  - intros y Hy. unfold by_firstReceivedTime. simpl.
    assert (firstReceivedTime y <= now); [|lia].
    apply H. unfold tagged_sources.
    by rewrite <- !(assoc_L (++)%list) in Hy.
Qed.

Lemma StronglySorted_last_max (l : list (TranscriptionSegment Sdk)) x :
  StronglySorted (fun a b => firstReceivedTime a <= firstReceivedTime b) l ->
  last l = Some x ->
  forall y, y ∈ l -> firstReceivedTime y <= firstReceivedTime x.
Proof.
  induction 1 as [|z l Hl IH Hz]; intros Hlast y Hy; [by inversion Hy|].
  destruct l as [|z' l'].
  - simpl in Hlast. injection Hlast as <-.
    apply list_elem_of_singleton in Hy as ->. lia.
  - change (last (z' :: l') = Some x) in Hlast.
    apply elem_of_cons in Hy as [->|Hy]; [|by apply IH].
    rewrite Forall_forall in Hz. apply Hz. by apply last_Some_elem_of.
Qed.

(** X17. The view scrolls to nothing exactly when the three sources are
    empty. Otherwise the element it asks for bears the [id] of a segment
    of the list that no segment exceeds in [firstReceivedTime]. *)
Theorem scroll_target_latest h :
  (scroll_target (combinedTranscriptions h) = None <->
     agentTranscriptions h = [] /\ userTranscriptions h = [] /\
     manualMessages h = []) /\
  (forall i, scroll_target (combinedTranscriptions h) = Some i ->
     exists x, x ∈ combinedTranscriptions h /\ id x = i /\
       forall y, y ∈ combinedTranscriptions h ->
         firstReceivedTime y <= firstReceivedTime x).
Proof.
  unfold scroll_target. split.
  - rewrite fmap_None, last_None. split.
    + intros Hnil. pose proof (Permutation_length (combined_perm h)) as Hlen.
      rewrite tagged_sources_length, Hnil in Hlen. simpl in Hlen.
      destruct (agentTranscriptions h), (userTranscriptions h), (manualMessages h);
        simpl in Hlen; try done; lia.
    + intros (Ha & Hu & Hm). unfold combinedTranscriptions, tagged_sources.
      by rewrite Ha, Hu, Hm.
  - intros i Hi. apply fmap_Some in Hi as (x & Hx & ->).
    exists x. split; [by apply last_Some_elem_of|]. split; [done|].
    by apply StronglySorted_last_max; [apply combined_sorted|].
Qed.

End Hook.

Lemma manual_id_inj_witness :
  id (@newMessage unit "a" None 10 "abc1234")
    = id (@newMessage unit "b" (Some assistant) 10 "abc1234").
Proof.
  apply (manual_id_inj (Sdk := unit) "a" "b" None (Some assistant) 10 10
           "abc1234" "abc1234"); [lia|lia|].
  split; reflexivity.
Defined.

Lemma addManualMessage_latest_goes_last_witness :
  let h : HookState unit :=
    {| agentTranscriptions := [ mkReceived "a1" "hello" 5 tt ];
       userTranscriptions := [];
       manualMessages := [] |} in
  combinedTranscriptions (addManualMessage "typed" None 10 "abc1234" h)
  = (combinedTranscriptions h ++ [newMessage "typed" None 10 "abc1234"])%list.
Proof.
  intros h.
  apply (addManualMessage_latest_goes_last "typed" None 10 "abc1234" h).
  intros y Hy. apply list_elem_of_singleton in Hy as ->. simpl. lia.
Defined.

End TranscriptionsMore.

(** ** The chat popup *)

Module ChatFacts.
Import JS Http Eff Store JSFacts Chat.
Local Open Scope eff_scope.
#[local] Set Warnings "-clear-no-such-hyp".

(** *** [trim] *)

Lemma trim_start_white l : all_white l = true -> trim_start l = [].
Proof.
  induction l as [|c l IH]; simpl; [done|].
  intros [Hc Hl]%andb_prop. rewrite Hc. auto.
Qed.

Lemma trim_end_nonempty l : all_white l = false -> trim_end l <> [].
Proof.
  induction l as [|c l IH]; simpl; [done|].
  destruct (trim_end l) eqn:Ht; [|done].
  destruct (is_white c) eqn:Hc; simpl; [|done]. intros H. by destruct (IH H).
Qed.

Lemma trim_start_not_white l :
  all_white l = false -> all_white (trim_start l) = false.
Proof.
  induction l as [|c l IH]; simpl; [done|].
  destruct (is_white c) eqn:Hc; simpl; [done|]. by rewrite Hc.
Qed.

Lemma trim_blank s : truthy_text (trim s) = negb (all_white (code_points s)).
Proof.
  unfold trim. destruct (all_white (code_points s)) eqn:H.
  - by rewrite trim_start_white.
  - simpl. pose proof (trim_end_nonempty _ (trim_start_not_white _ H)) as Hne.
    destruct (trim_end (trim_start (code_points s))); [done|]. reflexivity.
Qed.

(** What [trim] leaves of some strings, given by their UTF-8 bytes where
    they are not ASCII: the text between the outer white space as it is;
    nothing of the ideographic space U+3000 (E3 80 80), of the no-break
    space U+00A0 (C2 A0), of the em space U+2003 (E2 80 83) followed by
    the line separator U+2028 (E2 80 A8) and U+FEFF (EF BB BF); the
    letter U+00E9 (C3 A9) and the character U+1F600 (F0 9F 98 80) stay. *)
Example trim_examples :
  trim " hi  there " = code_points "hi  there"
  /\ trim "   " = []
  /\ code_points (of_bytes [227; 128; 128]%N) = [12288%N]
  /\ trim (of_bytes [227; 128; 128]%N) = []
  /\ trim (of_bytes [194; 160]%N) = []
  /\ trim (of_bytes [226; 128; 131; 226; 128; 168; 239; 187; 191]%N) = []
  /\ trim (of_bytes [32; 195; 169; 32]%N) = [233%N]
  /\ trim (of_bytes [240; 159; 152; 128; 10]%N) = [128512%N].
Proof. repeat split. Qed.

Section Popup.
Context {Sdk : Type}.
Implicit Types (u : Screen Sdk) (e : ui_event Sdk) (es : list (ui_event Sdk)).

(** X19. A message made only of characters that [trim] removes (any of
    the white space and line terminators of ECMAScript, such as U+3000,
    U+2028 or U+FEFF), the empty message included, is not sent:
    [handleSendMessage] changes nothing, makes no request and leaves the
    input field as it is. *)
Theorem handleSendMessage_blank now sfx u :
  all_white (code_points (message u)) = true ->
  handleSendMessage now sfx u = (u, None).
Proof. intros H. unfold handleSendMessage. by rewrite trim_blank, H. Qed.

(** X20. A message with a character that is not white space is sent as
    typed, not trimmed, and the input field is emptied. In text mode it
    is appended to the history of the store as a user message and the
    request to [/api/intake/text-message] is made, the manual messages
    staying as they are; in voice mode it becomes a manual message of the
    popup's hook with role user, the store is untouched and no request is
    made. *)
Theorem handleSendMessage_sends now sfx u :
  all_white (code_points (message u)) = false ->
  let r := handleSendMessage now sfx u in
  message r.1 = EmptyString /\
  view_manual r.1 = view_manual u /\
  match mode (store u) with
  | text =>
      conversationHistory (store r.1) =
        (conversationHistory (store u) ++
           [ {| role := user; content := VStr (message u); timestamp := now |} ])%list /\
      popup_manual r.1 = popup_manual u /\
      (exists req, r.2 = Some req /\ req_url req = "/api/intake/text-message")
  | voice =>
      store r.1 = store u /\
      popup_manual r.1 =
        (popup_manual u ++
           [ Transcriptions.newMessage (message u) None now sfx ])%list /\
      r.2 = None
  end.
Proof.
  intros H r. subst r. unfold handleSendMessage. rewrite trim_blank, H. simpl.
  destruct (mode (store u)); simpl; repeat split; eauto.
Qed.

Lemma ui_step_view_manual u e : view_manual (ui_step u e) = view_manual u.
Proof.
  destruct e; simpl; try done.
  - unfold handleSendMessage. destruct (truthy_text _); [|done]. by destruct (mode _).
  - unfold handleKeyDown, handleSendMessage. destruct (String.eqb _ _); [|done].
    destruct (truthy_text _); [|done]. by destruct (mode _).
Qed.

Lemma ui_run_view_manual u es : view_manual (ui_run u es) = view_manual u.
Proof.
  revert u. induction es as [|e es IH]; intros u; simpl; [done|].
  unfold ui_run in *. simpl. by rewrite IH, ui_step_view_manual.
Qed.

(** X18. Whatever is typed and sent, in whatever mode, and whatever the
    SDK and the store do, the list that [TranscriptionView] renders holds
    no manual message: the messages go to the [manualMessages] of the
    popup's own call of the hook, while the view's call keeps an empty
    one, so the view shows the agent and user segments of the SDK, sorted,
    and nothing else. *)
Theorem view_never_shows_typed now es :
  let u := ui_run (initial_screen now) es in
  view_manual u = [] /\
  rendered u =
    sort Transcriptions.by_firstReceivedTime
      ((Transcriptions.with_role Transcriptions.assistant <$> sdk_agent u) ++
       (Transcriptions.with_role Transcriptions.user <$> sdk_user u))%list /\
  (forall x, x ∈ rendered u -> Transcriptions.rest x <> None).
Proof.
  intros u. subst u.
  pose proof (ui_run_view_manual (initial_screen now) es) as Hv. simpl in Hv.
  split; [exact Hv|].
  assert (Hr : rendered (ui_run (initial_screen now) es) =
    sort Transcriptions.by_firstReceivedTime
      ((Transcriptions.with_role Transcriptions.assistant
          <$> sdk_agent (ui_run (initial_screen now) es)) ++
       (Transcriptions.with_role Transcriptions.user
          <$> sdk_user (ui_run (initial_screen now) es)))%list).
  { unfold rendered, Transcriptions.combinedTranscriptions,
      Transcriptions.tagged_sources.
    simpl. rewrite Hv. by rewrite app_nil_r. }
  split; [exact Hr|].
  intros x. rewrite Hr, sort_perm, elem_of_app, !list_elem_of_fmap.
  intros [(y & -> & _)|(y & -> & _)]; done.
Qed.

End Popup.

(** A popup in voice mode with a message typed: sending it leaves the
    rendered list empty. *)
Example typed_in_voice_mode_not_rendered :
  let es : list (ui_event unit) :=
    [ StoreStep (Session.Step (SwitchModeSettle voice
         (Response 200 (Some (VObj {[ "connection_details" := VStr "cd" ]}))) 1001));
      Typed "hello"; ClickSend 1002 "abc1234" ] in
  let u := ui_run (initial_screen 1000) es in
  mode (store u) = voice /\ length (popup_manual u) = 1%nat /\ rendered u = [].
Proof. repeat split. Qed.

Lemma handleSendMessage_blank_witness :
  let typed := of_bytes [32; 227; 128; 128; 226; 128; 168; 239; 187; 191; 194; 160]%N in
  handleSendMessage 1001 "abc1234" (setMessage typed (@initial_screen unit 1000))
  = (setMessage typed (initial_screen 1000), None).
Proof.
  intros typed.
  apply (handleSendMessage_blank (Sdk := unit) 1001 "abc1234"
           (setMessage typed (initial_screen 1000))).
  reflexivity.
Defined.

Lemma handleSendMessage_sends_witness :
  message (handleSendMessage 1001 "abc1234"
             (setMessage " hi " (@initial_screen unit 1000))).1 = EmptyString.
Proof.
  destruct (handleSendMessage_sends (Sdk := unit) 1001 "abc1234"
              (setMessage " hi " (initial_screen 1000)) eq_refl) as [H _].
  exact H.
Defined.

(** *** [toggleVoice] *)

(** X21. With the voice active, [toggleVoice] makes one call,
    [setMicrophoneEnabled(false)], and no other: the room is neither
    connected nor disconnected and nothing is fetched. [isVoiceActive]
    becomes false when the call resolves; when it throws, the error
    leaves [toggleVoice] and [isVoiceActive] stays true. *)
Theorem toggleVoice_off world new_URL env disconnected cd v :
  isVoiceActive v = true ->
  let r := toggleVoice world new_URL env true disconnected cd v in
  calls r.2 = (calls v ++ [SetMicrophoneEnabled false])%list /\
  (forall x, world (SetMicrophoneEnabled false) = Normal x ->
     r.1 = Normal tt /\ isVoiceActive r.2 = false) /\
  (forall e, world (SetMicrophoneEnabled false) = Thrown e ->
     r.1 = Thrown e /\ isVoiceActive r.2 = true).
Proof.
  intros Hv r. subst r.
  unfold toggleVoice, bind, get, await_call, bind, set, lift. simpl.
  rewrite Hv. simpl.
  destruct (world (SetMicrophoneEnabled false)) as [x|e]; simpl.
  - split; [done|]. split; [done|]. intros e [=].
  - split; [done|]. split; [intros x [=]|]. intros e' [= <-]. done.
Qed.

Lemma toggleVoice_off_witness :
  calls (toggleVoice (fun _ => Normal VUndef) Normal None true false VNull
           {| isVoiceActive := true; calls := [] |}).2
  = [SetMicrophoneEnabled false].
Proof.
  destruct (toggleVoice_off (fun _ => Normal VUndef) Normal None false VNull
              {| isVoiceActive := true; calls := [] |} eq_refl) as [H _].
  exact H.
Defined.

(** X22. With the voice not active, [toggleVoice] never calls
    [setMicrophoneEnabled(false)], and [isVoiceActive] becomes true
    exactly when the call returns normally. In that case the last call
    made is [setMicrophoneEnabled(true)] and it resolved, it was made
    once, every call before it resolved, and those calls end with the
    [connect] of the room when the agent was disconnected and are none
    when it was not: the microphone is never enabled before, or without,
    a connection that succeeded. *)
Theorem toggleVoice_on_safe world new_URL env disconnected cd v :
  isVoiceActive v = false ->
  let r := toggleVoice world new_URL env true disconnected cd v in
  exists new,
    calls r.2 = (calls v ++ new)%list /\
    (SetMicrophoneEnabled false ∉ new) /\
    (isVoiceActive r.2 = true <-> r.1 = Normal tt) /\
    (r.1 = Normal tt ->
       exists before x,
         new = (before ++ [SetMicrophoneEnabled true])%list /\
         world (SetMicrophoneEnabled true) = Normal x /\
         (SetMicrophoneEnabled true ∉ before) /\
         (forall c, c ∈ before -> exists y, world c = Normal y) /\
         (disconnected = true -> exists u t, last before = Some (Connect u t)) /\
         (disconnected = false -> before = [])).
Proof.
  intros Hv r. subst r.
  unfold toggleVoice, bind, get, await_call, bind, set, lift. simpl.
  rewrite Hv. simpl.
  assert (Hdead : forall e : error, false = true <-> Thrown e = @Normal unit tt)
    by (intros e; split; discriminate).
  destruct disconnected; simpl.
  - destruct (truthy cd) eqn:Hcd; simpl.
    + destruct (get_prop_not_nullish cd "url" (truthy_not_nullish _ Hcd)) as [u ->].
      destruct (get_prop_not_nullish cd "token" (truthy_not_nullish _ Hcd)) as [t ->].
      simpl. destruct (world (Connect u t)) as [y|e] eqn:Hc; simpl.
      2:{ exists [Connect u t]. rewrite Hv. split; [done|]. split; [set_solver|].
          split; [apply Hdead|discriminate]. }
      destruct (world (SetMicrophoneEnabled true)) as [x|e] eqn:Hm; simpl.
      2:{ exists [Connect u t; SetMicrophoneEnabled true].
          rewrite <- !app_assoc, Hv. split; [done|]. split; [set_solver|].
          split; [apply Hdead|discriminate]. }
      exists [Connect u t; SetMicrophoneEnabled true].
      rewrite <- !app_assoc. split; [done|]. split; [set_solver|].
      split; [done|]. intros _.
      exists [Connect u t], x. split; [done|]. split; [done|].
      split; [set_solver|].
      split; [intros c ->%list_elem_of_singleton; eauto|].
      split; [intros _; by exists u, t|discriminate].
    + destruct (new_URL (conn_details_endpoint env)) as [url|e]; simpl.
      2:{ exists []. rewrite app_nil_r, Hv. split; [done|]. split; [set_solver|].
          split; [apply Hdead|discriminate]. }
      set (f := FetchConnectionDetails url).
      destruct (world f) as [data|e] eqn:Hf; simpl.
      2:{ exists [f]. rewrite Hv. split; [done|]. split; [set_solver|].
          split; [apply Hdead|discriminate]. }
      destruct (get_prop data "serverUrl") as [u|e] eqn:Hu; simpl.
      2:{ exists [f]. rewrite Hv. split; [done|]. split; [set_solver|].
          split; [apply Hdead|discriminate]. }
      destruct (get_prop data "participantToken") as [t|e] eqn:Ht; simpl.
      2:{ exists [f]. rewrite Hv. split; [done|]. split; [set_solver|].
          split; [apply Hdead|discriminate]. }
      destruct (world (Connect u t)) as [y|e] eqn:Hc; simpl.
      2:{ exists [f; Connect u t]. rewrite <- !app_assoc, Hv.
          split; [done|]. split; [set_solver|].
          split; [apply Hdead|discriminate]. }
      destruct (world (SetMicrophoneEnabled true)) as [x|e] eqn:Hm; simpl.
      2:{ exists [f; Connect u t; SetMicrophoneEnabled true].
          rewrite <- !app_assoc, Hv. split; [done|]. split; [set_solver|].
          split; [apply Hdead|discriminate]. }
      exists [f; Connect u t; SetMicrophoneEnabled true].
      rewrite <- !app_assoc. split; [done|]. split; [set_solver|].
      split; [done|]. intros _.
      exists [f; Connect u t], x. split; [done|]. split; [done|].
      split; [set_solver|].
      split; [intros c [->| ->%list_elem_of_singleton]%elem_of_cons; eauto|].
      split; [intros _; by exists u, t|discriminate].
  - destruct (world (SetMicrophoneEnabled true)) as [x|e] eqn:Hm; simpl.
    2:{ exists [SetMicrophoneEnabled true]. rewrite Hv.
        split; [done|]. split; [set_solver|].
        split; [apply Hdead|discriminate]. }
    exists [SetMicrophoneEnabled true]. split; [done|]. split; [set_solver|].
    split; [done|]. intros _.
    exists [], x. split; [done|]. split; [done|]. split; [set_solver|].
    split; [by intros c Hc; inversion Hc|]. split; [discriminate|done].
Qed.

Lemma toggleVoice_on_safe_witness :
  exists new,
    calls (toggleVoice (fun _ => Thrown NetworkFailure) Normal None true true VNull
             {| isVoiceActive := false; calls := [] |}).2 = new /\
    (SetMicrophoneEnabled false ∉ new).
Proof.
  destruct (toggleVoice_on_safe (fun _ => Thrown NetworkFailure) Normal None true VNull
              {| isVoiceActive := false; calls := [] |} eq_refl)
    as (new & H1 & H2 & _).
  exists new. split; [exact H1|exact H2].
Defined.

(** X23. With the voice not active and the agent disconnected: when the
    store holds truthy connection details, the first call is the
    [connect] of the room with their [url] and [token] and nothing is
    fetched. When it holds none ([null], or [undefined] as after a switch
    answered without them), a URL is made from the endpoint, which is the
    value of the environment variable when it is set, the empty string
    included, and [/api/connection-details] otherwise: when the URL can be
    made, the first call is the fetch of that URL; when making it throws,
    no call is made at all, the error leaves [toggleVoice] and
    [isVoiceActive] stays false. *)
Theorem toggleVoice_source_of_details world new_URL env cd v :
  isVoiceActive v = false ->
  let r := toggleVoice world new_URL env true true cd v in
  (truthy cd = true ->
     exists u t rest_,
       get_prop cd "url" = Normal u /\ get_prop cd "token" = Normal t /\
       calls r.2 = (calls v ++ Connect u t :: rest_)%list /\
       forall url, FetchConnectionDetails url ∉ rest_) /\
  (truthy cd = false ->
     (forall url,
        new_URL (default "/api/connection-details" env) = Normal url ->
        exists rest_,
          calls r.2 = (calls v ++ FetchConnectionDetails url :: rest_)%list) /\
     (forall e,
        new_URL (default "/api/connection-details" env) = Thrown e ->
        r = (Thrown e, v))).
Proof.
  intros Hv r. subst r.
  unfold toggleVoice, bind, get, await_call, bind, set, lift. simpl.
  rewrite Hv. simpl. split; intros Hcd; rewrite Hcd; simpl.
  - destruct (get_prop_not_nullish cd "url" (truthy_not_nullish _ Hcd)) as [u Hu].
    destruct (get_prop_not_nullish cd "token" (truthy_not_nullish _ Hcd)) as [t Ht].
    rewrite Hu, Ht. exists u, t. simpl.
    destruct (world (Connect u t)); simpl.
    + destruct (world (SetMicrophoneEnabled true)); simpl;
        exists [SetMicrophoneEnabled true]; rewrite <- !app_assoc;
        (split; [done|]); (split; [done|]); (split; [done|]); set_solver.
    + exists []. split; [done|]. split; [done|]. split; [done|]. set_solver.
  - fold (conn_details_endpoint env). split.
    + intros url ->. simpl.
      set (f := FetchConnectionDetails url).
      destruct (world f) as [data|]; simpl; [|by exists []].
      destruct (get_prop data "serverUrl") as [u|]; simpl; [|by exists []].
      destruct (get_prop data "participantToken") as [t|]; simpl; [|by exists []].
      destruct (world (Connect u t)); simpl; [|by eexists; rewrite <- !app_assoc].
      destruct (world (SetMicrophoneEnabled true)); simpl;
        eexists; by rewrite <- !app_assoc.
    + intros e ->. simpl. by destruct v.
Qed.

Lemma toggleVoice_source_of_details_witness :
  (exists rest_,
     calls (toggleVoice (fun _ => Thrown NetworkFailure)
              (fun endpoint => Normal ("https://app.example" ++ endpoint))
              None true true VUndef
              {| isVoiceActive := false; calls := [] |}).2
     = FetchConnectionDetails "https://app.example/api/connection-details" :: rest_)
  /\ toggleVoice (fun _ => Normal VUndef) (fun _ => Thrown TypeError)
       (Some "http://a b/") true true VNull
       {| isVoiceActive := false; calls := [] |}
     = (Thrown TypeError, {| isVoiceActive := false; calls := [] |}).
Proof.
  split.
  - destruct (toggleVoice_source_of_details (fun _ => Thrown NetworkFailure)
                (fun endpoint => Normal ("https://app.example" ++ endpoint))
                None VUndef {| isVoiceActive := false; calls := [] |} eq_refl)
      as [_ H].
    exact (proj1 (H eq_refl) _ eq_refl).
  - destruct (toggleVoice_source_of_details (fun _ => Normal VUndef)
                (fun _ => Thrown TypeError) (Some "http://a b/") VNull
                {| isVoiceActive := false; calls := [] |} eq_refl)
      as [_ H].
    exact (proj2 (H eq_refl) _ eq_refl).
Defined.

End ChatFacts.

(** ** The store behind the proxy route *)

Module WiringFacts.
Import JS Http Eff Store Session Wiring JSFacts StoreFacts ProxyFacts.

(** X24. When the backend cannot be reached by the proxy route, or
    answers it with a body that is not JSON, the browser gets from either
    handler the status 500 with the JSON error body. The store does not
    take that for a failure: [sendTextMessage] appends an assistant
    message with undefined content, not the apology; [initialize]
    appends a greeting with undefined content, not the fixed greeting;
    [switchMode('voice')] goes to voice mode with undefined connection
    details; [switchMode('text')] goes to text mode. *)
Theorem store_behind_failing_proxy env upstream path log payload s now now' msg :
  (forall req, upstream req = Rejected \/ exists code, upstream req = Response code None) ->
  exists r_get r_post,
    (Proxy.GET env upstream path log).1 = Normal r_get /\
    (Proxy.POST env upstream (Some payload) path log).1 = Normal r_post /\
    answered r_get = error_reply /\ answered r_post = error_reply /\
    backend_call_failed (answered r_post) = true /\
    conversationHistory (sendTextMessage (fun _ => answered r_post) now now' msg s).2 =
      (conversationHistory s ++
         [ {| role := user; content := VStr msg; timestamp := now |};
           {| role := assistant; content := VUndef; timestamp := now' |} ])%list /\
    conversationHistory (initialize (fun _ => answered r_get) now s).2 =
      (conversationHistory s ++
         [ {| role := assistant; content := VUndef; timestamp := now |} ])%list /\
    (switchMode (fun _ => answered r_post) now voice s).2
      = set_mode_settled voice VUndef s /\
    (switchMode (fun _ => answered r_post) now text s).2
      = set_mode_settled text VNull s.
Proof.
  intros Hup. eexists _, _.
  rewrite GET_eq, POST_eq.
  destruct (proj1 (await_json_thrown _)
              (Hup (Proxy.forwarded Http.GET env path None))) as [e1 ->].
  destruct (proj1 (await_json_thrown _)
              (Hup (Proxy.forwarded Http.POST env path (Some payload)))) as [e2 ->].
  simpl.
  split; [reflexivity|]. split; [reflexivity|].
  split; [reflexivity|]. split; [reflexivity|]. split; [reflexivity|].
  split; [|split; [|split]]; try reflexivity.
  rewrite sendTextMessage_eq. cbv zeta.
  change (conversationHistory s ++ [?a; ?b])%list
    with (conversationHistory s ++ [a] ++ [b])%list.
  rewrite (assoc_L (++)%list). reflexivity.
Qed.

Lemma store_behind_failing_proxy_witness :
  exists r_post,
    (Proxy.POST None (fun _ => Rejected) (Some VNull) ["text-message"] []).1
      = Normal r_post /\
    answered r_post = error_reply.
Proof.
  destruct (store_behind_failing_proxy None (fun _ => Rejected) ["text-message"]
              [] VNull (initial_state 1000) 1001 1002 "hi")
    as (r_get & r_post & _ & H1 & _ & H2 & _).
  { intros req. left. reflexivity. }
  exists r_post. split; [exact H1|exact H2].
Defined.

End WiringFacts.
